(** * homebridge-rgbw-mqtt: the lightbulb accessory of [src/accessory.ts]

    The accessory keeps five private fields (the mirror of the device), one
    MQTT ['message'] listener and a GET and a SET listener for each of the
    five HomeKit characteristics.  The listeners are embedded as computations
    in a small monad that threads the five fields, records the calls made to
    the logger, the MQTT client and the characteristic objects, and stops at
    the first JavaScript exception.

    JavaScript values, the loose comparison [!=], [toString], [split] and
    property access are the language's; they are written out here on the
    values that [JSON.parse] and HomeKit can hand to the listeners.  Numbers
    and [JSON.parse] itself are interfaces ([JSNumber], [JSON]); an instance
    on the integers with a parser for integer-valued JSON text is provided to
    run the listeners on concrete messages. *)

From Stdlib Require Import Bool Arith ZArith List String Ascii Lia.
Import ListNotations.
Local Open Scope string_scope.

Set Implicit Arguments.
Set Warnings "-register-all".

(** ** JavaScript values *)

(** The operations of the Number type that the listeners use, directly or
    through [!=], string concatenation and the conditional operator.
    [num_of_string] is StringToNumber, [None] standing for NaN;
    [num_literal] is the value of an integer literal of the program text. *)
Class JSNumber : Type := {
  num : Type;
  num_eqb : num -> num -> bool;
  num_toString : num -> string;
  num_of_string : string -> option num;
  num_of_bool : bool -> num;
  num_toBoolean : num -> bool;
  num_literal : Z -> num
}.

Section Values.
Context {N : JSNumber}.

Inductive jsval : Type :=
| JUndefined
| JNull
| JBool (b : bool)
| JNum (n : num)
| JStr (s : string)
| JArr (elems : list jsval)
| JObj (members : list (string * jsval)).

(** [x != null] on line 111 and its three siblings. *)
Definition not_nullish (v : jsval) : bool :=
  match v with
  | JUndefined | JNull => false
  | _ => true
  end.

(** The member a JSON object holds under a key: the last one written in the
    text wins. *)
Fixpoint own_member (key : string) (members : list (string * jsval)) : option jsval :=
  match members with
  | [] => None
  | (k, v) :: rest =>
      match own_member key rest with
      | Some later => Some later
      | None => if k =? key then Some v else None
      end
  end.

(** The text of a value, as [v.toString()], as the operand of a string
    concatenation and as the primitive that [==] compares; [None] is the
    TypeError of a value that has no text.  An array joins the texts of its
    elements with commas, [null] and [undefined] elements giving the empty
    text.  An object read from JSON prints as [[object Object]], unless it
    has a member of its own named [toString]: that member is not a function,
    so calling it, and converting the object to a primitive, raise. *)
Fixpoint js_ToString (v : jsval) : option string :=
  match v with
  | JUndefined => Some "undefined"
  | JNull => Some "null"
  | JBool b => Some (if b then "true" else "false")
  | JNum n => Some (num_toString n)
  | JStr s => Some s
  | JArr elems =>
      (fix join (l : list jsval) : option string :=
         match l with
         | [] => Some EmptyString
         | x :: rest =>
             let sx := match x with
                       | JUndefined | JNull => Some EmptyString
                       | _ => js_ToString x
                       end in
             match rest with
             | [] => sx
             | _ :: _ =>
                 match sx, join rest with
                 | Some first, Some others => Some (first ++ "," ++ others)
                 | _, _ => None
                 end
             end
         end) elems
  | JObj members =>
      match own_member "toString" members with
      | Some _ => None
      | None => Some "[object Object]"
      end
  end.

(** ToBoolean, the test of [c ? a : b]. *)
Definition js_ToBoolean (v : jsval) : bool :=
  match v with
  | JUndefined | JNull => false
  | JBool b => b
  | JNum n => num_toBoolean n
  | JStr s => negb (s =? "")
  | JArr _ | JObj _ => true
  end.

(** Number against string: the string is converted with StringToNumber. *)
Definition num_eq_string (n : num) (s : string) : bool :=
  match num_of_string s with
  | Some m => num_eqb n m
  | None => false
  end.

(** Loose equality [x == y]; [None] is a TypeError.  An array or object
    against a number, a string or a boolean is first converted to its text,
    which raises when it has none.  Two objects are equal only when they are
    the same reference; every object compared in this program has just been
    allocated by [JSON.parse], so two objects never compare equal. *)
Definition js_loose_eq (x y : jsval) : option bool :=
  match x, y with
  | (JUndefined | JNull), (JUndefined | JNull) => Some true
  | (JUndefined | JNull), _ | _, (JUndefined | JNull) => Some false
  | JNum a, JNum b => Some (num_eqb a b)
  | JStr a, JStr b => Some (a =? b)
  | JBool a, JBool b => Some (Bool.eqb a b)
  | JNum a, JStr b => Some (num_eq_string a b)
  | JStr a, JNum b => Some (num_eq_string b a)
  | JBool a, JNum b => Some (num_eqb (num_of_bool a) b)
  | JNum a, JBool b => Some (num_eqb a (num_of_bool b))
  | JBool a, JStr b => Some (num_eq_string (num_of_bool a) b)
  | JStr a, JBool b => Some (num_eq_string (num_of_bool b) a)
  | (JArr _ | JObj _), (JArr _ | JObj _) => Some false
  | (JArr _ | JObj _) as o, JNum b => option_map (num_eq_string b) (js_ToString o)
  | JNum a, ((JArr _ | JObj _) as o) => option_map (num_eq_string a) (js_ToString o)
  | (JArr _ | JObj _) as o, JStr b => option_map (fun text => text =? b) (js_ToString o)
  | JStr a, ((JArr _ | JObj _) as o) => option_map (fun text => a =? text) (js_ToString o)
  | (JArr _ | JObj _) as o, JBool b =>
      option_map (num_eq_string (num_of_bool b)) (js_ToString o)
  | JBool a, ((JArr _ | JObj _) as o) =>
      option_map (num_eq_string (num_of_bool a)) (js_ToString o)
  end.

(** [x != y]. *)
Definition js_loose_neq (x y : jsval) : option bool :=
  option_map negb (js_loose_eq x y).

(** [context !== 'fromSetValue'] compares without conversion: only the
    string itself is equal to the literal. *)
Definition js_strict_neq_string (x : jsval) (lit : string) : bool :=
  match x with
  | JStr s => negb (s =? lit)
  | _ => true
  end.

(** [s.split(',')]: the pieces between the separators, at least one. *)
Fixpoint split (sep : ascii) (s : string) : list string :=
  match s with
  | EmptyString => [EmptyString]
  | String c rest =>
      if Ascii.eqb c sep then EmptyString :: split sep rest
      else match split sep rest with
           | piece :: pieces => String c piece :: pieces
           | [] => [String c EmptyString]
           end
  end.

(** [a[i]] on an array of strings: [undefined] past the end. *)
Definition index (a : list string) (i : nat) : jsval :=
  match nth_error a i with
  | Some s => JStr s
  | None => JUndefined
  end.

End Values.

Arguments jsval {N}.

(** [JSON.parse]: [None] when it throws a SyntaxError. *)
Class JSON {N : JSNumber} : Type := {
  JSON_parse : string -> option jsval
}.

(** ** An instance on the integers

    Numbers are integers, printed in decimal.  StringToNumber covers what
    the device sends: an optional sign and decimal digits, with surrounding
    white space, and the empty string for zero; every other text is NaN. *)
Module IntegerNumbers.

Definition is_digit (c : ascii) : bool :=
  (48 <=? nat_of_ascii c)%nat && (nat_of_ascii c <=? 57)%nat.

Definition digit_value (c : ascii) : Z := Z.of_nat (nat_of_ascii c - 48).

(** Reads decimal digits off the front of [s], continuing the value [acc]. *)
Fixpoint read_digits (s : string) (acc : Z) : Z * string :=
  match s with
  | String c rest =>
      if is_digit c then read_digits rest (10 * acc + digit_value c)%Z
      else (acc, s)
  | EmptyString => (acc, s)
  end.

Fixpoint digits_of_pos (fuel : nat) (p : Z) (acc : string) : string :=
  match fuel with
  | O => acc
  | S fuel' =>
      let d := ascii_of_nat (48 + Z.to_nat (p mod 10)) in
      if (p <? 10)%Z then String d acc
      else digits_of_pos fuel' (p / 10)%Z (String d acc)
  end.

Definition toString (z : Z) : string :=
  if (z <? 0)%Z then String "-" (digits_of_pos (S (Z.to_nat (Z.log2 (- z)))) (- z) "")
  else digits_of_pos (S (Z.to_nat (Z.log2 z))) z "".

Definition is_str_white_space (c : ascii) : bool :=
  let n := nat_of_ascii c in
  ((9 <=? n)%nat && (n <=? 13)%nat) || (n =? 32)%nat.

Fixpoint trim_start (s : string) : string :=
  match s with
  | String c rest => if is_str_white_space c then trim_start rest else s
  | EmptyString => s
  end.

(** Unsigned decimal digits, at least one, then only white space. *)
Definition unsigned_literal (s : string) : option Z :=
  match s with
  | String c _ =>
      if is_digit c then
        let '(v, rest) := read_digits s 0 in
        match trim_start rest with
        | EmptyString => Some v
        | _ => None
        end
      else None
  | EmptyString => None
  end.

Definition of_string (s : string) : option Z :=
  match trim_start s with
  | EmptyString => Some 0%Z
  | String "-" rest => option_map Z.opp (unsigned_literal rest)
  | String "+" rest => unsigned_literal rest
  | t => unsigned_literal t
  end.

#[export] Instance ZNumber : JSNumber := {
  num := Z;
  num_eqb := Z.eqb;
  num_toString := toString;
  num_of_string := of_string;
  num_of_bool := fun b => if b then 1%Z else 0%Z;
  num_toBoolean := fun z => negb (z =? 0)%Z;
  num_literal := fun z => z
}.

End IntegerNumbers.

(** ** A parser for JSON text

    [parse_json] reads JSON text whose numbers are integers: objects, arrays,
    strings with the one-letter escapes, [true], [false], [null] and integer
    literals.  A fraction, an exponent or a unicode escape is not read. *)
Module JsonText.
Import IntegerNumbers.

Definition dquote : ascii := "034"%char.
Definition backslash : ascii := "092"%char.

Definition is_json_white_space (c : ascii) : bool :=
  let n := nat_of_ascii c in
  (n =? 32)%nat || (n =? 9)%nat || (n =? 10)%nat || (n =? 13)%nat.

Fixpoint skip_ws (s : string) : string :=
  match s with
  | String c rest => if is_json_white_space c then skip_ws rest else s
  | EmptyString => s
  end.

(** The characters of a string literal after its opening quote. *)
Fixpoint parse_chars (s : string) : option (string * string) :=
  match s with
  | EmptyString => None
  | String c rest =>
      if Ascii.eqb c dquote then Some (EmptyString, rest)
      else if Ascii.eqb c backslash then
        match rest with
        | String e rest' =>
            let unescaped :=
              if Ascii.eqb e dquote then Some dquote
              else if Ascii.eqb e backslash then Some backslash
              else if Ascii.eqb e "/" then Some "/"%char
              else if Ascii.eqb e "b" then Some "008"%char
              else if Ascii.eqb e "f" then Some "012"%char
              else if Ascii.eqb e "n" then Some "010"%char
              else if Ascii.eqb e "r" then Some "013"%char
              else if Ascii.eqb e "t" then Some "009"%char
              else None in
            match unescaped, parse_chars rest' with
            | Some u, Some (body, after) => Some (String u body, after)
            | _, _ => None
            end
        | EmptyString => None
        end
      else if (nat_of_ascii c <? 32)%nat then None
      else
        match parse_chars rest with
        | Some (body, after) => Some (String c body, after)
        | None => None
        end
  end.

(** An integer literal without its sign: [0], or digits not starting with
    [0]; nothing of a fraction or an exponent may follow. *)
Definition parse_unsigned (s : string) : option (Z * string) :=
  match s with
  | String c rest =>
      if negb (is_digit c) then None
      else
        let '(v, after) := if Ascii.eqb c "0" then (0%Z, rest) else read_digits s 0 in
        match after with
        | String d _ =>
            if Ascii.eqb d "." || Ascii.eqb d "e" || Ascii.eqb d "E" then None
            else Some (v, after)
        | EmptyString => Some (v, after)
        end
  | EmptyString => None
  end.

(** [prefix lit s]: [s] without the leading [lit], when it starts with it. *)
Fixpoint strip_prefix (lit s : string) : option string :=
  match lit, s with
  | EmptyString, _ => Some s
  | String a lit', String b s' => if Ascii.eqb a b then strip_prefix lit' s' else None
  | String _ _, EmptyString => None
  end.

Fixpoint parse_value (fuel : nat) (s : string) {struct fuel} : option (jsval * string) :=
  match fuel with
  | O => None
  | S fuel' =>
      match skip_ws s with
      | EmptyString => None
      | String c rest =>
          if Ascii.eqb c "{" then
            match skip_ws rest with
            | String "}" after => Some (JObj [], after)
            | _ => parse_members fuel' rest
            end
          else if Ascii.eqb c "[" then
            match skip_ws rest with
            | String "]" after => Some (JArr [], after)
            | _ => parse_elements fuel' rest
            end
          else if Ascii.eqb c dquote then
            match parse_chars rest with
            | Some (str, after) => Some (JStr str, after)
            | None => None
            end
          else if Ascii.eqb c "-" then
            match parse_unsigned rest with
            | Some (v, after) => Some (JNum (- v)%Z, after)
            | None => None
            end
          else if is_digit c then
            match parse_unsigned (String c rest) with
            | Some (v, after) => Some (JNum v, after)
            | None => None
            end
          else
            match strip_prefix "true" (String c rest),
                  strip_prefix "false" (String c rest),
                  strip_prefix "null" (String c rest) with
            | Some after, _, _ => Some (JBool true, after)
            | _, Some after, _ => Some (JBool false, after)
            | _, _, Some after => Some (JNull, after)
            | _, _, _ => None
            end
      end
  end
with parse_elements (fuel : nat) (s : string) {struct fuel} : option (jsval * string) :=
  match fuel with
  | O => None
  | S fuel' =>
      match parse_value fuel' s with
      | None => None
      | Some (v, after) =>
          match skip_ws after with
          | String "]" after' => Some (JArr [v], after')
          | String "," after' =>
              match parse_elements fuel' after' with
              | Some (JArr vs, after'') => Some (JArr (v :: vs), after'')
              | _ => None
              end
          | _ => None
          end
      end
  end
with parse_members (fuel : nat) (s : string) {struct fuel} : option (jsval * string) :=
  match fuel with
  | O => None
  | S fuel' =>
      match skip_ws s with
      | String c rest =>
          if negb (Ascii.eqb c dquote) then None
          else
            match parse_chars rest with
            | None => None
            | Some (key, after) =>
                match skip_ws after with
                | String ":" after' =>
                    match parse_value fuel' after' with
                    | None => None
                    | Some (v, after'') =>
                        match skip_ws after'' with
                        | String "}" rest' => Some (JObj [(key, v)], rest')
                        | String "," rest' =>
                            match parse_members fuel' rest' with
                            | Some (JObj ms, rest'') => Some (JObj ((key, v) :: ms), rest'')
                            | _ => None
                            end
                        | _ => None
                        end
                    end
                | _ => None
                end
            end
      | EmptyString => None
      end
  end.

(** The whole text must be one value, white space around it allowed. *)
Definition parse_json (text : string) : option jsval :=
  match parse_value (2 * String.length text + 2) text with
  | Some (v, after) =>
      match skip_ws after with
      | EmptyString => Some v
      | _ => None
      end
  | None => None
  end.

#[export] Instance IntegerJSON : JSON := {
  JSON_parse := parse_json
}.

(** String literals of the examples: [quoted s] is [s] between double
    quotes. *)
Definition quoted (s : string) : string :=
  String dquote (s ++ String dquote EmptyString).

End JsonText.

(** ** The accessory: configuration, fields and the calls it makes *)

(** [hap.Characteristic.On] and its four siblings. *)
Inductive Characteristic : Type :=
| On
| Brightness
| ColorTemperature
| Hue
| Saturation.

(** [config.topics]. *)
Record Topics : Type := {
  getOn : string;
  getRes : string;
  setOn : string;
  setBrightness : string;
  setColorTemp : string;
  setHue : string;
  setSat : string
}.

Record AccessoryConfig : Type := {
  name : string;
  url : string;
  topics : Topics
}.

(** What a listener does to the outside: a line for the logger, a publish on
    the MQTT client, a [setValue] on a characteristic of the lightbulb
    service. *)
Inductive call {N : JSNumber} : Type :=
| log_info (args : list string)
| mqtt_publish (topic payload : string)
| characteristic_setValue (c : Characteristic) (value context : jsval).

Inductive exn : Type :=
| SyntaxError
| TypeError.

Inductive completion (A : Type) : Type :=
| Normal (a : A)
| Throw (e : exn).

Arguments Throw {A} e.

Section Accessory.
Context {N : JSNumber} {J : JSON}.

(** The five private fields of [ExampleSwitch] that the listeners read and
    write.  An [as boolean] or [as number] of the source converts nothing, so
    a field holds whatever value was assigned. *)
Record ExampleSwitch : Type := {
  lightbulbOn : jsval;
  lightbulbBrightness : jsval;
  lightbulbColorTemp : jsval;
  lightbulbHue : jsval;
  lightbulbSat : jsval
}.

(** The field initializers, lines 59 to 63. *)
Definition constructed : ExampleSwitch := {|
  lightbulbOn := JBool false;
  lightbulbBrightness := JNum (num_literal 0);
  lightbulbColorTemp := JNum (num_literal 153);
  lightbulbHue := JNum (num_literal 0);
  lightbulbSat := JNum (num_literal 0)
|}.

Definition set_lightbulbOn (v : jsval) (s : ExampleSwitch) : ExampleSwitch :=
  {| lightbulbOn := v;
     lightbulbBrightness := lightbulbBrightness s;
     lightbulbColorTemp := lightbulbColorTemp s;
     lightbulbHue := lightbulbHue s;
     lightbulbSat := lightbulbSat s |}.

Definition set_lightbulbBrightness (v : jsval) (s : ExampleSwitch) : ExampleSwitch :=
  {| lightbulbOn := lightbulbOn s;
     lightbulbBrightness := v;
     lightbulbColorTemp := lightbulbColorTemp s;
     lightbulbHue := lightbulbHue s;
     lightbulbSat := lightbulbSat s |}.

Definition set_lightbulbColorTemp (v : jsval) (s : ExampleSwitch) : ExampleSwitch :=
  {| lightbulbOn := lightbulbOn s;
     lightbulbBrightness := lightbulbBrightness s;
     lightbulbColorTemp := v;
     lightbulbHue := lightbulbHue s;
     lightbulbSat := lightbulbSat s |}.

Definition set_lightbulbHue (v : jsval) (s : ExampleSwitch) : ExampleSwitch :=
  {| lightbulbOn := lightbulbOn s;
     lightbulbBrightness := lightbulbBrightness s;
     lightbulbColorTemp := lightbulbColorTemp s;
     lightbulbHue := v;
     lightbulbSat := lightbulbSat s |}.

Definition set_lightbulbSat (v : jsval) (s : ExampleSwitch) : ExampleSwitch :=
  {| lightbulbOn := lightbulbOn s;
     lightbulbBrightness := lightbulbBrightness s;
     lightbulbColorTemp := lightbulbColorTemp s;
     lightbulbHue := lightbulbHue s;
     lightbulbSat := v |}.

(** The field behind each characteristic. *)
Definition field (c : Characteristic) : ExampleSwitch -> jsval :=
  match c with
  | On => lightbulbOn
  | Brightness => lightbulbBrightness
  | ColorTemperature => lightbulbColorTemp
  | Hue => lightbulbHue
  | Saturation => lightbulbSat
  end.

Definition set_field (c : Characteristic) : jsval -> ExampleSwitch -> ExampleSwitch :=
  match c with
  | On => set_lightbulbOn
  | Brightness => set_lightbulbBrightness
  | ColorTemperature => set_lightbulbColorTemp
  | Hue => set_lightbulbHue
  | Saturation => set_lightbulbSat
  end.

(** ** Listeners as computations *)

(** How a listener ends: normally or with an exception, with the fields as
    it leaves them and the calls it made, in order. *)
Record outcome (A : Type) : Type := {
  result : completion A;
  mirror : ExampleSwitch;
  calls : list call
}.

Definition M (A : Type) : Type := ExampleSwitch -> outcome A.

Definition ret {A : Type} (a : A) : M A :=
  fun s => {| result := Normal a; mirror := s; calls := [] |}.

Definition throw {A : Type} (e : exn) : M A :=
  fun s => {| result := Throw e; mirror := s; calls := [] |}.

Definition bind {A B : Type} (m : M A) (k : A -> M B) : M B :=
  fun s =>
    match m s with
    | {| result := Normal a; mirror := s1; calls := t1 |} =>
        match k a s1 with
        | {| result := r; mirror := s2; calls := t2 |} =>
            {| result := r; mirror := s2; calls := t1 ++ t2 |}
        end
    | {| result := Throw e; mirror := s1; calls := t1 |} =>
        {| result := Throw e; mirror := s1; calls := t1 |}
    end.

Notation "x <- m ;; k" := (bind m (fun x => k))
  (at level 61, m at next level, right associativity).
Notation "m ;; k" := (bind m (fun _ => k))
  (at level 61, right associativity).

(** [this.f]. *)
Definition this (f : ExampleSwitch -> jsval) : M jsval :=
  fun s => {| result := Normal (f s); mirror := s; calls := [] |}.

(** [this.f = v]. *)
Definition assign (set_f : jsval -> ExampleSwitch -> ExampleSwitch) (v : jsval) : M unit :=
  fun s => {| result := Normal tt; mirror := set_f v s; calls := [] |}.

Definition emit (c : call) : M unit :=
  fun s => {| result := Normal tt; mirror := s; calls := [c] |}.

(** [if (b) { m }]. *)
Definition when (b : bool) (m : M unit) : M unit :=
  if b then m else ret tt.

(** [JSON.parse(message.toString()).key] for the keys the listener reads
    ([Dimmer], [CT], [HSBColor]): a SyntaxError when the text is not JSON, a
    TypeError when it is [null]; the member of an object, and [undefined]
    on an object without it and on a string, number, boolean or array. *)
Definition parse_member (message key : string) : M jsval :=
  match JSON_parse message with
  | None => throw SyntaxError
  | Some (JNull | JUndefined) => throw TypeError
  | Some (JObj members) =>
      ret (match own_member key members with
           | Some v => v
           | None => JUndefined
           end)
  | Some _ => ret JUndefined
  end.

(** [v.toString()]: a TypeError on [null] and [undefined], and on an object
    whose own [toString] member is in the way. *)
Definition toString_method (v : jsval) : M string :=
  if not_nullish v then
    match js_ToString v with
    | Some text => ret text
    | None => throw TypeError
    end
  else throw TypeError.

(** ["text" + v]: the value is converted to its text, a TypeError when it
    has none. *)
Definition concat (text : string) (v : jsval) : M string :=
  match js_ToString v with
  | Some shown => ret (text ++ shown)
  | None => throw TypeError
  end.

(** [x != y], a TypeError when the conversion of an object raises. *)
Definition differs (x y : jsval) : M bool :=
  match js_loose_neq x y with
  | Some b => ret b
  | None => throw TypeError
  end.

(** [c ? "ON" : "OFF"]. *)
Definition ON_OFF (v : jsval) : string :=
  if js_ToBoolean v then "ON" else "OFF".

Variable config : AccessoryConfig.

(** *** GET listeners (lines 183, 199, 215, 231, 247).  The value returned
    is the one handed to [callback(undefined, value)]. *)

Definition On_GET : M jsval :=
  on <- this lightbulbOn ;;
  emit (log_info ["Current state of the lightbulb was returned: " ++ ON_OFF on]) ;;
  this lightbulbOn.

Definition Brightness_GET : M jsval :=
  b <- this lightbulbBrightness ;;
  line <- concat "Current brightness of the lightbulb was returned: " b ;;
  emit (log_info [line]) ;;
  this lightbulbBrightness.

Definition ColorTemperature_GET : M jsval :=
  ct <- this lightbulbColorTemp ;;
  line <- concat "Current color temperature of the lightbulb was returned: " ct ;;
  emit (log_info [line]) ;;
  this lightbulbColorTemp.

Definition Hue_GET : M jsval :=
  h <- this lightbulbHue ;;
  line <- concat "Current hue of the lightbulb was returned: " h ;;
  emit (log_info [line]) ;;
  this lightbulbHue.

Definition Saturation_GET : M jsval :=
  sat <- this lightbulbSat ;;
  line <- concat "Current saturation of the lightbulb was returned: " sat ;;
  emit (log_info [line]) ;;
  this lightbulbSat.

(** *** SET listeners (lines 187, 203, 219, 235, 251).  A normal end is the
    call [callback()]. *)

Definition On_SET (value context : jsval) : M unit :=
  when (js_strict_neq_string context "fromSetValue") (
    assign set_lightbulbOn value ;;
    on <- this lightbulbOn ;;
    emit (mqtt_publish (setOn (topics config)) (ON_OFF on))) ;;
  on <- this lightbulbOn ;;
  emit (log_info ["Lightbulb state was set to: " ++ ON_OFF on]) ;;
  ret tt.

Definition Brightness_SET (value context : jsval) : M unit :=
  when (js_strict_neq_string context "fromSetValue") (
    assign set_lightbulbBrightness value ;;
    b <- this lightbulbBrightness ;;
    payload <- toString_method b ;;
    emit (mqtt_publish (setBrightness (topics config)) payload)) ;;
  b <- this lightbulbBrightness ;;
  line <- concat "Lightbulb brightness was set to: " b ;;
  emit (log_info [line]) ;;
  ret tt.

Definition ColorTemperature_SET (value context : jsval) : M unit :=
  when (js_strict_neq_string context "fromSetValue") (
    assign set_lightbulbColorTemp value ;;
    ct <- this lightbulbColorTemp ;;
    payload <- toString_method ct ;;
    emit (mqtt_publish (setColorTemp (topics config)) payload)) ;;
  ct <- this lightbulbColorTemp ;;
  line <- concat "Lightbulb color temperature was set to: " ct ;;
  emit (log_info [line]) ;;
  ret tt.

Definition Hue_SET (value context : jsval) : M unit :=
  when (js_strict_neq_string context "fromSetValue") (
    assign set_lightbulbHue value ;;
    h <- this lightbulbHue ;;
    payload <- toString_method h ;;
    emit (mqtt_publish (setHue (topics config)) payload)) ;;
  h <- this lightbulbHue ;;
  line <- concat "Lightbulb hue was set to: " h ;;
  emit (log_info [line]) ;;
  ret tt.

Definition Saturation_SET (value context : jsval) : M unit :=
  when (js_strict_neq_string context "fromSetValue") (
    assign set_lightbulbSat value ;;
    sat <- this lightbulbSat ;;
    payload <- toString_method sat ;;
    emit (mqtt_publish (setSat (topics config)) payload)) ;;
  sat <- this lightbulbSat ;;
  line <- concat "Lightbulb saturation was set to: " sat ;;
  emit (log_info [line]) ;;
  ret tt.

(** The listeners registered on a characteristic. *)
Definition GET (c : Characteristic) : M jsval :=
  match c with
  | On => On_GET
  | Brightness => Brightness_GET
  | ColorTemperature => ColorTemperature_GET
  | Hue => Hue_GET
  | Saturation => Saturation_GET
  end.

Definition SET (c : Characteristic) : jsval -> jsval -> M unit :=
  match c with
  | On => On_SET
  | Brightness => Brightness_SET
  | ColorTemperature => ColorTemperature_SET
  | Hue => Hue_SET
  | Saturation => Saturation_SET
  end.

(** [lightbulbService.getCharacteristic(c).setValue(value, undefined, context)]:
    the characteristic hands the value and the context to its SET listener
    before it returns. *)
Definition setValue (c : Characteristic) (value context : jsval) : M unit :=
  emit (characteristic_setValue c value context) ;;
  SET c value context.

(** *** The ['message'] listener of the MQTT client (lines 95 to 169). *)
Definition on_message (topic message : string) : M unit :=
  emit (log_info [message; topic]) ;;
  when (topic =? getOn (topics config)) (
    let status := message in
    assign set_lightbulbOn (JBool (status =? "ON")) ;;
    on <- this lightbulbOn ;;
    setValue On on (JStr "fromSetValue")) ;;
  when (topic =? getRes (topics config)) (
    dimmer <- parse_member message "Dimmer" ;;
    when (not_nullish dimmer) (
      newB <- parse_member message "Dimmer" ;;
      b <- this lightbulbBrightness ;;
      changed <- differs newB b ;;
      when changed (
        assign set_lightbulbBrightness newB ;;
        b' <- this lightbulbBrightness ;;
        setValue Brightness b' (JStr "fromSetValue"))) ;;
    ct <- parse_member message "CT" ;;
    when (not_nullish ct) (
      newCT <- parse_member message "CT" ;;
      c <- this lightbulbColorTemp ;;
      changed <- differs newCT c ;;
      when changed (
        assign set_lightbulbColorTemp newCT ;;
        c' <- this lightbulbColorTemp ;;
        setValue ColorTemperature c' (JStr "fromSetValue"))) ;;
    hsb <- parse_member message "HSBColor" ;;
    when (not_nullish hsb) (
      hsb' <- parse_member message "HSBColor" ;;
      text <- toString_method hsb' ;;
      let newHue := index (split "," text) 0 in
      h <- this lightbulbHue ;;
      changed <- differs newHue h ;;
      when changed (
        assign set_lightbulbHue newHue ;;
        h' <- this lightbulbHue ;;
        setValue Hue h' (JStr "fromSetValue"))) ;;
    hsb2 <- parse_member message "HSBColor" ;;
    when (not_nullish hsb2) (
      hsb2' <- parse_member message "HSBColor" ;;
      text <- toString_method hsb2' ;;
      let newSat := index (split "," text) 1 in
      sat <- this lightbulbSat ;;
      changed <- differs newSat sat ;;
      when changed (
        assign set_lightbulbSat newSat ;;
        sat' <- this lightbulbSat ;;
        setValue Saturation sat' (JStr "fromSetValue")))).

(** The same listener with the SET listeners of the characteristics left
    open: [setValue] hands the value and the context to [listener]. *)
Definition setValue_to (listener : Characteristic -> jsval -> jsval -> M unit)
    (c : Characteristic) (value context : jsval) : M unit :=
  emit (characteristic_setValue c value context) ;;
  listener c value context.

Definition on_message_to (listener : Characteristic -> jsval -> jsval -> M unit)
    (topic message : string) : M unit :=
  emit (log_info [message; topic]) ;;
  when (topic =? getOn (topics config)) (
    let status := message in
    assign set_lightbulbOn (JBool (status =? "ON")) ;;
    on <- this lightbulbOn ;;
    setValue_to listener On on (JStr "fromSetValue")) ;;
  when (topic =? getRes (topics config)) (
    dimmer <- parse_member message "Dimmer" ;;
    when (not_nullish dimmer) (
      newB <- parse_member message "Dimmer" ;;
      b <- this lightbulbBrightness ;;
      changed <- differs newB b ;;
      when changed (
        assign set_lightbulbBrightness newB ;;
        b' <- this lightbulbBrightness ;;
        setValue_to listener Brightness b' (JStr "fromSetValue"))) ;;
    ct <- parse_member message "CT" ;;
    when (not_nullish ct) (
      newCT <- parse_member message "CT" ;;
      c <- this lightbulbColorTemp ;;
      changed <- differs newCT c ;;
      when changed (
        assign set_lightbulbColorTemp newCT ;;
        c' <- this lightbulbColorTemp ;;
        setValue_to listener ColorTemperature c' (JStr "fromSetValue"))) ;;
    hsb <- parse_member message "HSBColor" ;;
    when (not_nullish hsb) (
      hsb' <- parse_member message "HSBColor" ;;
      text <- toString_method hsb' ;;
      let newHue := index (split "," text) 0 in
      h <- this lightbulbHue ;;
      changed <- differs newHue h ;;
      when changed (
        assign set_lightbulbHue newHue ;;
        h' <- this lightbulbHue ;;
        setValue_to listener Hue h' (JStr "fromSetValue"))) ;;
    hsb2 <- parse_member message "HSBColor" ;;
    when (not_nullish hsb2) (
      hsb2' <- parse_member message "HSBColor" ;;
      text <- toString_method hsb2' ;;
      let newSat := index (split "," text) 1 in
      sat <- this lightbulbSat ;;
      changed <- differs newSat sat ;;
      when changed (
        assign set_lightbulbSat newSat ;;
        sat' <- this lightbulbSat ;;
        setValue_to listener Saturation sat' (JStr "fromSetValue")))).

(** ** What the outside sees of a list of calls *)

(** The MQTT publishes, as (topic, payload). *)
Fixpoint publishes (l : list call) : list (string * string) :=
  match l with
  | [] => []
  | mqtt_publish t p :: rest => (t, p) :: publishes rest
  | _ :: rest => publishes rest
  end.

(** The values pushed to the characteristics, with their context. *)
Fixpoint pushes (l : list call) : list (Characteristic * jsval * jsval) :=
  match l with
  | [] => []
  | characteristic_setValue c v ctx :: rest => (c, v, ctx) :: pushes rest
  | _ :: rest => pushes rest
  end.

End Accessory.

Notation "x <- m ;; k" := (bind m (fun x => k))
  (at level 61, m at next level, right associativity).
Notation "m ;; k" := (bind m (fun _ => k))
  (at level 61, right associativity).

(** ** Vocabulary of the properties *)

Section Vocabulary.
Context {N : JSNumber} {J : JSON}.

(** The context that marks a value pushed by the ['message'] listener. *)
Definition echo_tag : jsval := JStr "fromSetValue".

(** The outbound topic of each characteristic. *)
Definition set_topic (config : AccessoryConfig) (c : Characteristic) : string :=
  match c with
  | On => setOn (topics config)
  | Brightness => setBrightness (topics config)
  | ColorTemperature => setColorTemp (topics config)
  | Hue => setHue (topics config)
  | Saturation => setSat (topics config)
  end.

(** A field holds a value of its declared type: a boolean for
    [lightbulbOn], a number for the other four. *)
Definition of_declared_type (c : Characteristic) (v : jsval) : Prop :=
  match c, v with
  | On, JBool _ => True
  | (Brightness | ColorTemperature | Hue | Saturation), JNum _ => True
  | _, _ => False
  end.

Definition fully_defined (s : ExampleSwitch) : Prop :=
  forall c, of_declared_type c (field c s).

(** The field of a characteristic can be written in the log line of its
    listeners: [On] is logged as ON or OFF, the others by their text. *)
Definition loggable (c : Characteristic) (s : ExampleSwitch) : Prop :=
  match c with
  | On => True
  | _ => exists text, js_ToString (field c s) = Some text
  end.

(** An update of one field, and a list of them applied in order. *)
Definition update : Type := Characteristic * jsval.

Definition apply_updates (us : list update) (s : ExampleSwitch) : ExampleSwitch :=
  fold_left (fun st u => set_field (fst u) (snd u) st) us s.

Definition tagged (u : update) : Characteristic * jsval * jsval :=
  (fst u, snd u, echo_tag).

(** A summary of a run from the fields [s]: it wrote the fields of some
    updates [us], on distinct characteristics among [L], pushed exactly these
    values to the characteristics with the tag, published nothing, and every
    update other than of [On] carries a value that [!=] tells apart from the
    field as it was in [s]. *)
Definition decodes {A : Type} (L : list Characteristic) (s : ExampleSwitch)
    (o : outcome A) : Prop :=
  exists us : list update,
    incl (map fst us) L /\
    NoDup (map fst us) /\
    mirror o = apply_updates us s /\
    pushes (calls o) = map tagged us /\
    publishes (calls o) = [] /\
    Forall (fun u => fst u <> On ->
                     js_loose_neq (snd u) (field (fst u) s) = Some true) us.

(** [n] GETs in a row on one characteristic: the values handed to the
    callbacks, the fields after the last one, and every call made. *)
Fixpoint GET_repeatedly (n : nat) (c : Characteristic) (s : ExampleSwitch)
    : list (completion jsval) * ExampleSwitch * list call :=
  match n with
  | O => ([], s, [])
  | S n' =>
      let o := GET c s in
      let '(rs, s', t) := GET_repeatedly n' c (mirror o) in
      (result o :: rs, s', (calls o ++ t)%list)
  end.

(** The events the accessory reacts to: a message delivered by the MQTT
    client, a GET or a SET emitted by a characteristic. *)
Inductive event : Type :=
| MqttMessage (topic message : string)
| HostGet (c : Characteristic)
| HostSet (c : Characteristic) (value context : jsval).

(** [handles config s e r s' t]: from the fields [s] the listener registered
    for [e] ends with [r] (the value given to the callback, if any), leaves
    the fields [s'] and has made the calls [t]. *)
Inductive handles (config : AccessoryConfig) (s : ExampleSwitch)
  : event -> completion (option jsval) -> ExampleSwitch -> list call -> Prop :=
| handles_message (topic message : string) (o : outcome unit) :
    o = on_message config topic message s ->
    handles config s (MqttMessage topic message)
      (match result o with Normal _ => Normal None | Throw e => Throw e end)
      (mirror o) (calls o)
| handles_get (c : Characteristic) (o : outcome jsval) :
    o = GET c s ->
    handles config s (HostGet c)
      (match result o with Normal v => Normal (Some v) | Throw e => Throw e end)
      (mirror o) (calls o)
| handles_set (c : Characteristic) (value context : jsval) (o : outcome unit) :
    o = SET config c value context s ->
    handles config s (HostSet c value context)
      (match result o with Normal _ => Normal None | Throw e => Throw e end)
      (mirror o) (calls o).

End Vocabulary.

(** A configuration and messages to run the listeners on. *)
Module Example.
Import IntegerNumbers JsonText.

Definition tasmota : AccessoryConfig := {|
  name := "Bulb";
  url := "mqtt://localhost";
  topics := {| getOn := "stat/bulb/POWER";
               getRes := "stat/bulb/RESULT";
               setOn := "cmnd/bulb/POWER";
               setBrightness := "cmnd/bulb/Dimmer";
               setColorTemp := "cmnd/bulb/CT";
               setHue := "cmnd/bulb/HSBColor1";
               setSat := "cmnd/bulb/HSBColor2" |}
|}.

(** The same inbound topics, other outbound topics. *)
Definition renamed : AccessoryConfig := {|
  name := "Lamp";
  url := "mqtt://broker";
  topics := {| getOn := "stat/bulb/POWER";
               getRes := "stat/bulb/RESULT";
               setOn := "cmnd/lamp/POWER";
               setBrightness := "cmnd/lamp/Dimmer";
               setColorTemp := "cmnd/lamp/CT";
               setHue := "cmnd/lamp/Hue";
               setSat := "cmnd/lamp/Sat" |}
|}.

(** [{"Dimmer": 42}] *)
Definition dimmer_42 : string := "{" ++ quoted "Dimmer" ++ ": 42}".

(** [{"HSBColor":"120,50,80"}] *)
Definition hsb_120_50_80 : string :=
  "{" ++ quoted "HSBColor" ++ ":" ++ quoted "120,50,80" ++ "}".

(** [{"HSBColor":"120"}] *)
Definition hsb_120 : string :=
  "{" ++ quoted "HSBColor" ++ ":" ++ quoted "120" ++ "}".

(** [{"Dimmer":{"a":1}}] *)
Definition dimmer_object : string :=
  "{" ++ quoted "Dimmer" ++ ":{" ++ quoted "a" ++ ":1}}".

(** [{"Dimmer":{"toString":1}}] *)
Definition dimmer_toString : string :=
  "{" ++ quoted "Dimmer" ++ ":{" ++ quoted "toString" ++ ":1}}".

(** Text that is not JSON. *)
Definition not_json : string := "{Dimmer".


(** The fields after the messages [dimmer_object] and [dimmer_toString] on
    the composite topic of [tasmota]. *)
Definition brightness_unprintable : ExampleSwitch :=
  set_lightbulbBrightness (JObj [("toString", JNum 1%Z)]) constructed.

End Example.

(** ** The ['message'] listener read as a decoder *)

Section Decoder.
Context {N : JSNumber} {J : JSON}.

(** The topics of the two [subscribe] calls of the constructor (lines 173
    and 174). *)
Definition subscribed (config : AccessoryConfig) : list string :=
  [getOn (topics config); getRes (topics config)].

(** [JSON.parse(text).key] on a parsed value that is not [null]: the member
    of an object, [undefined] otherwise. *)
Definition member (key : string) (parsed : jsval) : jsval :=
  match parsed with
  | JObj members =>
      match own_member key members with
      | Some v => v
      | None => JUndefined
      end
  | _ => JUndefined
  end.

(** What a decoding has come to: how it ended, the fields it leaves and the
    updates it pushed. *)
Definition decoded : Type := completion unit * ExampleSwitch * list update.

Definition ending (d : decoded) : completion unit := fst (fst d).
Definition fields_of (d : decoded) : ExampleSwitch := snd (fst d).
Definition updates_of (d : decoded) : list update := snd d.

(** The value the listener compares with a field, when the message carries
    one: [Dimmer] and [CT] as they are, the first and the second piece of
    the text of [HSBColor]; a TypeError when [HSBColor] has no text. *)
Definition candidate (parsed : jsval) (c : Characteristic)
    : completion (option jsval) :=
  match c with
  | On => Normal None
  | Brightness =>
      Normal (if not_nullish (member "Dimmer" parsed)
              then Some (member "Dimmer" parsed) else None)
  | ColorTemperature =>
      Normal (if not_nullish (member "CT" parsed)
              then Some (member "CT" parsed) else None)
  | Hue =>
      if not_nullish (member "HSBColor" parsed) then
        match js_ToString (member "HSBColor" parsed) with
        | Some text => Normal (Some (index (split "," text) 0))
        | None => Throw TypeError
        end
      else Normal None
  | Saturation =>
      if not_nullish (member "HSBColor" parsed) then
        match js_ToString (member "HSBColor" parsed) with
        | Some text => Normal (Some (index (split "," text) 1))
        | None => Throw TypeError
        end
      else Normal None
  end.

(** How the SET listener that a push reaches ends: it only writes its log
    line, which needs the text of the field unless the field is [On]. *)
Definition echoed (c : Characteristic) (v : jsval) : completion unit :=
  match c with
  | On => Normal tt
  | _ =>
      match js_ToString v with
      | Some _ => Normal tt
      | None => Throw TypeError
      end
  end.

(** One field against its candidate: written, and noted as an update, when
    [!=] tells the candidate apart from the field; a TypeError when the
    candidate or the comparison raises, and after the update when the log
    line of the echoed SET does. *)
Definition settle (c : Characteristic) (cand : completion (option jsval))
    (s : ExampleSwitch) : decoded :=
  match cand with
  | Throw e => (Throw e, s, [])
  | Normal None => (Normal tt, s, [])
  | Normal (Some v) =>
      match js_loose_neq v (field c s) with
      | None => (Throw TypeError, s, [])
      | Some false => (Normal tt, s, [])
      | Some true => (echoed c v, set_field c v s, [(c, v)])
      end
  end.

(** One decoding after another: the second runs from the fields of the
    first, unless the first raised. *)
Definition followed (first : decoded) (next : ExampleSwitch -> decoded) : decoded :=
  match first with
  | (Normal _, s, us) => let '(r, s', us') := next s in (r, s', (us ++ us')%list)
  | (Throw e, s, us) => (Throw e, s, us)
  end.

(** The four fields of the composite message, in the order of the listener. *)
Definition decode (parsed : jsval) (s : ExampleSwitch) : decoded :=
  followed (settle Brightness (candidate parsed Brightness) s) (fun s1 =>
  followed (settle ColorTemperature (candidate parsed ColorTemperature) s1) (fun s2 =>
  followed (settle Hue (candidate parsed Hue) s2) (fun s3 =>
  settle Saturation (candidate parsed Saturation) s3))).

(** The power topic: the field is the test [message == "ON"], always noted
    as an update. *)
Definition decode_power (config : AccessoryConfig) (topic message : string)
    (s : ExampleSwitch) : decoded :=
  if topic =? getOn (topics config)
  then (Normal tt, set_lightbulbOn (JBool (message =? "ON")) s,
        [(On, JBool (message =? "ON"))])
  else (Normal tt, s, []).

(** The composite topic: the text is parsed, and decoded unless it is not
    JSON or is [null]. *)
Definition decode_composite (config : AccessoryConfig) (topic message : string)
    (s : ExampleSwitch) : decoded :=
  if topic =? getRes (topics config) then
    match JSON_parse message with
    | None => (Throw SyntaxError, s, [])
    | Some parsed =>
        if not_nullish parsed then decode parsed s else (Throw TypeError, s, [])
    end
  else (Normal tt, s, []).

(** How the listener ends, the fields it leaves and the updates it pushed. *)
Definition reaction (config : AccessoryConfig) (topic message : string)
    (s : ExampleSwitch) : decoded :=
  followed (decode_power config topic message s)
           (decode_composite config topic message).

(** A run of a computation, summed up by a decoding: its end, its fields,
    the updates it pushed with the tag; it published nothing. *)
Definition yields (m : M unit) (s : ExampleSwitch) (d : decoded) : Prop :=
  result (m s) = ending d /\
  mirror (m s) = fields_of d /\
  pushes (calls (m s)) = map tagged (updates_of d) /\
  publishes (calls (m s)) = [].

(** Whether a text has the separator in it. *)
Fixpoint contains (sep : ascii) (s : string) : bool :=
  match s with
  | EmptyString => false
  | String c rest => Ascii.eqb c sep || contains sep rest
  end.

(** *** Events one after the other *)

(** The fields after the listener of an event, and the calls it made.  An
    exception ends the listener that raised it; the fields stay as it left
    them. *)
Definition react (config : AccessoryConfig) (e : event) (s : ExampleSwitch)
    : ExampleSwitch * list call :=
  match e with
  | MqttMessage topic message =>
      (mirror (on_message config topic message s),
       calls (on_message config topic message s))
  | HostGet c => (mirror (GET c s), calls (GET c s))
  | HostSet c value context =>
      (mirror (SET config c value context s),
       calls (SET config c value context s))
  end.

Fixpoint run (config : AccessoryConfig) (es : list event) (s : ExampleSwitch)
    : ExampleSwitch * list call :=
  match es with
  | [] => (s, [])
  | e :: rest =>
      let '(s1, t1) := react config e s in
      let '(s2, t2) := run config rest s1 in
      (s2, (t1 ++ t2)%list)
  end.

(** A SET that the host itself asks for: its context is not the tag. *)
Definition is_local_set (e : event) : bool :=
  match e with
  | HostSet _ _ context => js_strict_neq_string context "fromSetValue"
  | _ => false
  end.

(** A SET the host asks for with [null] or [undefined]. *)
Definition sets_nullish (e : event) : bool :=
  match e with
  | HostSet _ value context =>
      js_strict_neq_string context "fromSetValue" && negb (not_nullish value)
  | _ => false
  end.

(** The four fields that no message makes [null] or [undefined]. *)
Definition defined_but_saturation (s : ExampleSwitch) : Prop :=
  not_nullish (lightbulbOn s) = true /\
  not_nullish (lightbulbBrightness s) = true /\
  not_nullish (lightbulbColorTemp s) = true /\
  not_nullish (lightbulbHue s) = true.

End Decoder.

(** More messages to run the listeners on. *)
Module Telemetry.
Import IntegerNumbers JsonText.

(** [{"POWER":"ON"}] *)
Definition power_on : string := "{" ++ quoted "POWER" ++ ":" ++ quoted "ON" ++ "}".

(** [null] *)
Definition json_null : string := "null".

(** [{"Dimmer":42,"CT":300,"HSBColor":"120,50,80"}] *)
Definition full_state : string :=
  "{" ++ quoted "Dimmer" ++ ":42," ++ quoted "CT" ++ ":300,"
      ++ quoted "HSBColor" ++ ":" ++ quoted "120,50,80" ++ "}".

(** The fields after a host has set brightness 42. *)
Definition brightness_42 : ExampleSwitch :=
  set_lightbulbBrightness (JNum 42%Z) constructed.

End Telemetry.


(** ** The accessory in the second source file

    The same class with three fields: it subscribes to the power topic only,
    its ['message'] listener writes [lightbulbOn] and pushes nothing, its SET
    listeners take no context, and only the SET of [On] publishes.  Its
    listeners parse no JSON and compare nothing; the one thing that can
    raise is the log line of a brightness or colour temperature listener,
    when the field has no text. *)
Module Earlier.

Inductive characteristic : Type :=
| On
| Brightness
| ColorTemperature.

Inductive event {N : JSNumber} : Type :=
| MqttMessage (topic message : string)
| HostGet (c : characteristic)
| HostSet (c : characteristic) (value : jsval).

Section Listeners.
Context {N : JSNumber}.

Record ExampleSwitch : Type := {
  lightbulbOn : jsval;
  lightbulbBrightness : jsval;
  lightbulbColorTemp : jsval
}.

(** The field initializers, lines 59 to 61. *)
Definition constructed : ExampleSwitch := {|
  lightbulbOn := JBool false;
  lightbulbBrightness := JNum (num_literal 0);
  lightbulbColorTemp := JNum (num_literal 153)
|}.

Variable config : AccessoryConfig.

(** The ['message'] listener, lines 88 to 97. *)
Definition on_message (topic message : string) (s : ExampleSwitch)
    : ExampleSwitch * list call :=
  let logged := [log_info [message; topic]] in
  if topic =? getOn (topics config) then
    let status := message in
    ({| lightbulbOn := JBool (status =? "ON");
        lightbulbBrightness := lightbulbBrightness s;
        lightbulbColorTemp := lightbulbColorTemp s |},
     logged)
  else (s, logged).

(** [log.info("text" + v)]: the line, or a TypeError and no line when the
    value has no text. *)
Definition log_with (text : string) (v : jsval) : completion unit * list call :=
  match js_ToString v with
  | Some shown => (Normal tt, [log_info [text ++ shown]])
  | None => (Throw TypeError, [])
  end.

(** GET listeners, lines 110, 124 and 137: the value for the callback and
    the calls made. *)
Definition On_GET (s : ExampleSwitch) : completion jsval * list call :=
  (Normal (lightbulbOn s),
   [log_info ["Current state of the lightbulb was returned: " ++ ON_OFF (lightbulbOn s)]]).

Definition Brightness_GET (s : ExampleSwitch) : completion jsval * list call :=
  match log_with "Current brightness of the lightbulb was returned: "
                 (lightbulbBrightness s) with
  | (Normal _, logged) => (Normal (lightbulbBrightness s), logged)
  | (Throw e, logged) => (Throw e, logged)
  end.

Definition ColorTemperature_GET (s : ExampleSwitch) : completion jsval * list call :=
  match log_with "Current color temperature of the lightbulb was returned: "
                 (lightbulbColorTemp s) with
  | (Normal _, logged) => (Normal (lightbulbColorTemp s), logged)
  | (Throw e, logged) => (Throw e, logged)
  end.

(** SET listeners, lines 114, 128 and 141: how the listener ends, the fields
    and the calls made. *)
Definition On_SET (value : jsval) (s : ExampleSwitch)
    : completion unit * ExampleSwitch * list call :=
  let s' := {| lightbulbOn := value;
               lightbulbBrightness := lightbulbBrightness s;
               lightbulbColorTemp := lightbulbColorTemp s |} in
  (Normal tt, s',
   [mqtt_publish (setOn (topics config)) (ON_OFF (lightbulbOn s'));
    log_info ["Lightbulb state was set to: " ++ ON_OFF (lightbulbOn s')]]).

Definition Brightness_SET (value : jsval) (s : ExampleSwitch)
    : completion unit * ExampleSwitch * list call :=
  let s' := {| lightbulbOn := lightbulbOn s;
               lightbulbBrightness := value;
               lightbulbColorTemp := lightbulbColorTemp s |} in
  let '(r, logged) := log_with "Lightbulb brightness was set to: "
                               (lightbulbBrightness s') in
  (r, s', logged).

Definition ColorTemperature_SET (value : jsval) (s : ExampleSwitch)
    : completion unit * ExampleSwitch * list call :=
  let s' := {| lightbulbOn := lightbulbOn s;
               lightbulbBrightness := lightbulbBrightness s;
               lightbulbColorTemp := value |} in
  let '(r, logged) := log_with "Lightbulb color temperature was set to: "
                               (lightbulbColorTemp s') in
  (r, s', logged).

Definition GET (c : characteristic) : ExampleSwitch -> completion jsval * list call :=
  match c with
  | On => On_GET
  | Brightness => Brightness_GET
  | ColorTemperature => ColorTemperature_GET
  end.

Definition SET (c : characteristic)
    : jsval -> ExampleSwitch -> completion unit * ExampleSwitch * list call :=
  match c with
  | On => On_SET
  | Brightness => Brightness_SET
  | ColorTemperature => ColorTemperature_SET
  end.

(** Events one after the other: the fields after the listener of an event
    and the calls it made. *)
Definition react (e : event) (s : ExampleSwitch) : ExampleSwitch * list call :=
  match e with
  | MqttMessage topic message => on_message topic message s
  | HostGet c => (s, snd (GET c s))
  | HostSet c value => (snd (fst (SET c value s)), snd (SET c value s))
  end.

Fixpoint run (es : list event) (s : ExampleSwitch) : ExampleSwitch * list call :=
  match es with
  | [] => (s, [])
  | e :: rest =>
      let '(s1, t1) := react e s in
      let '(s2, t2) := run rest s1 in
      (s2, (t1 ++ t2)%list)
  end.

Definition sets_power (e : event) : bool :=
  match e with
  | HostSet On _ => true
  | _ => false
  end.

End Listeners.
End Earlier.

(** The three fields the two versions share. *)
Definition shared_fields {N : JSNumber} (s : ExampleSwitch) : Earlier.ExampleSwitch :=
  {| Earlier.lightbulbOn := lightbulbOn s;
     Earlier.lightbulbBrightness := lightbulbBrightness s;
     Earlier.lightbulbColorTemp := lightbulbColorTemp s |}.

(** A characteristic of the earlier version, in the current one. *)
Definition current_characteristic (c : Earlier.characteristic) : Characteristic :=
  match c with
  | Earlier.On => On
  | Earlier.Brightness => Brightness
  | Earlier.ColorTemperature => ColorTemperature
  end.

(** An event of the earlier version, as the current version receives it: a
    SET of the host comes without the tag. *)
Definition current_event {N : JSNumber} (e : Earlier.event) : event :=
  match e with
  | Earlier.MqttMessage topic message => MqttMessage topic message
  | Earlier.HostGet c => HostGet (current_characteristic c)
  | Earlier.HostSet c value => HostSet (current_characteristic c) value JUndefined
  end.

(** An event that is not a message on the composite topic of the current
    version. *)
Definition off_composite_topic {N : JSNumber} (config : AccessoryConfig)
    (e : Earlier.event) : Prop :=
  match e with
  | Earlier.MqttMessage topic _ => topic <> getRes (topics config)
  | _ => True
  end.

(** ** Reasoning about the listeners *)

Unset Implicit Arguments.

Section Reasoning.
Context {N : JSNumber} {J : JSON}.
Local Open Scope list_scope.

Lemma field_set_field_same (c : Characteristic) (v : jsval) (s : ExampleSwitch) :
  field c (set_field c v s) = v.
Proof. destruct c; reflexivity. Qed.

Lemma field_set_field_other (c c' : Characteristic) (v : jsval) (s : ExampleSwitch) :
  c <> c' -> field c (set_field c' v s) = field c s.
Proof. destruct c, c'; intros Hne; try reflexivity; now elim Hne. Qed.

Lemma publishes_app (t1 t2 : list call) :
  publishes (t1 ++ t2) = publishes t1 ++ publishes t2.
Proof.
  induction t1 as [|[args|tp pl|c v ctx] t1 IH]; simpl; auto.
  now rewrite IH.
Qed.

Lemma pushes_app (t1 t2 : list call) :
  pushes (t1 ++ t2) = pushes t1 ++ pushes t2.
Proof.
  induction t1 as [|[args|tp pl|c v ctx] t1 IH]; simpl; auto.
  now rewrite IH.
Qed.

Lemma apply_updates_app (us1 us2 : list update) (s : ExampleSwitch) :
  apply_updates (us1 ++ us2) s = apply_updates us2 (apply_updates us1 s).
Proof. apply fold_left_app. Qed.

(** A field that no update names keeps its value. *)
Lemma field_apply_updates_other (us : list update) :
  forall (s : ExampleSwitch) (c : Characteristic),
    ~ In c (map fst us) -> field c (apply_updates us s) = field c s.
Proof.
  induction us as [|[c' v'] us IH]; intros s c Hnot; simpl in *.
  - reflexivity.
  - unfold apply_updates in *. simpl. rewrite IH by tauto.
    apply field_set_field_other. intros ->. tauto.
Qed.

(** A field named once holds the value of its update. *)
Lemma field_apply_updates_in (us : list update) :
  forall (s : ExampleSwitch) (c : Characteristic) (v : jsval),
    NoDup (map fst us) -> In (c, v) us -> field c (apply_updates us s) = v.
Proof.
  induction us as [|[c' v'] us IH]; intros s c v Hnd Hin; simpl in *.
  - contradiction.
  - inversion Hnd as [|x l Hnotin Hnd']; subst.
    destruct Hin as [Heq | Hin].
    + inversion Heq; subst.
      change (field c (apply_updates us (set_field c v s)) = v).
      rewrite field_apply_updates_other by assumption.
      apply field_set_field_same.
    + change (field c (apply_updates us (set_field c' v' s)) = v).
      now apply IH.
Qed.

(** *** Rules for [decodes] *)

Lemma decodes_quiet (A : Type) (L : list Characteristic) (s : ExampleSwitch)
    (o : outcome A) :
  mirror o = s -> pushes (calls o) = [] -> publishes (calls o) = [] ->
  decodes L s o.
Proof.
  intros Hm Hp Hq. exists []. simpl.
  repeat split; auto using NoDup_nil, incl_nil_l.
Qed.

Lemma decodes_weaken (A : Type) (L L' : list Characteristic) (s : ExampleSwitch)
    (o : outcome A) :
  incl L L' -> decodes L s o -> decodes L' s o.
Proof.
  intros Hincl (us & Hin & Hnd & Hm & Hp & Hq & Hne).
  exists us. repeat split; auto. eapply incl_tran; eassumption.
Qed.

(** A step that neither writes a field nor pushes nor publishes. *)
Lemma decodes_bind_quiet (A B : Type) (m : M A) (k : A -> M B)
    (L : list Characteristic) (s : ExampleSwitch) :
  mirror (m s) = s -> pushes (calls (m s)) = [] -> publishes (calls (m s)) = [] ->
  (forall a, result (m s) = Normal a -> decodes L s (k a s)) ->
  decodes L s (bind m k s).
Proof.
  intros Hm Hp Hq Hk. unfold bind.
  destruct (m s) as [[a|e] s1 t1]; simpl in Hm, Hp, Hq, Hk; subst s1.
  - destruct (Hk a eq_refl) as (us & Hin & Hnd & Hm' & Hp' & Hq' & Hne).
    destruct (k a s) as [r s2 t2]. simpl in Hm', Hp', Hq'.
    exists us. simpl. rewrite pushes_app, publishes_app, Hp, Hq.
    repeat split; auto.
  - apply decodes_quiet; simpl; auto.
Qed.

(** Two steps that write different fields, one after the other. *)
Lemma decodes_bind (A B : Type) (m : M A) (k : A -> M B)
    (L1 L2 : list Characteristic) (s : ExampleSwitch) :
  decodes L1 s (m s) ->
  (forall a, result (m s) = Normal a -> decodes L2 (mirror (m s)) (k a (mirror (m s)))) ->
  (forall c, In c L1 -> ~ In c L2) ->
  decodes (L1 ++ L2) s (bind m k s).
Proof.
  intros H1 H2 Hdisj. unfold bind.
  destruct (m s) as [[a|e] s1 t1]; simpl in H2.
  - destruct H1 as (us1 & Hin1 & Hnd1 & Hm1 & Hp1 & Hq1 & Hne1).
    destruct (H2 a eq_refl) as (us2 & Hin2 & Hnd2 & Hm2 & Hp2 & Hq2 & Hne2).
    destruct (k a s1) as [r s2 t2]. simpl in Hm1, Hp1, Hq1, Hm2, Hp2, Hq2.
    exists (us1 ++ us2). simpl.
    rewrite map_app, pushes_app, publishes_app, apply_updates_app, map_app.
    rewrite Hp1, Hp2, Hq1, Hq2, Hm2, Hm1.
    repeat split; auto.
    + now apply incl_app_app.
    + apply NoDup_app; auto. intros c Hc1 Hc2.
      apply (Hdisj c); auto.
    + apply Forall_app. split; auto.
      rewrite Forall_forall in *. intros u Hu Hon.
      rewrite <- (field_apply_updates_other us1 s).
      * rewrite <- Hm1. now apply Hne2.
      * intros Hc1. apply (Hdisj (fst u)).
        -- now apply Hin1.
        -- apply Hin2. now apply in_map.
  - apply decodes_weaken with (L := L1); [apply incl_appl, incl_refl | exact H1].
Qed.

Lemma decodes_when (b : bool) (m : M unit) (L : list Characteristic)
    (s : ExampleSwitch) :
  (b = true -> decodes L s (m s)) -> decodes L s (when b m s).
Proof.
  destruct b; simpl; intros H.
  - now apply H.
  - now apply decodes_quiet.
Qed.
(** The three statements that follow every decision to update: assign the
    field, read it back, push it with the tag.  The SET listener that the
    push reaches sees the tag and only writes its log line. *)
Lemma write_then_push (config : AccessoryConfig) (c : Characteristic) (v : jsval)
    (s : ExampleSwitch) :
  let o := (assign (set_field c) v ;;
            x <- this (field c) ;;
            setValue config c x echo_tag) s in
  result o = echoed c v /\
  mirror o = set_field c v s /\
  pushes (calls o) = [(c, v, echo_tag)] /\
  publishes (calls o) = [].
Proof.
  destruct c; cbv -[js_ToString]; try (repeat split; reflexivity);
    destruct (js_ToString v); repeat split; reflexivity.
Qed.

Lemma decodes_write_then_push (config : AccessoryConfig) (c : Characteristic)
    (v : jsval) (s : ExampleSwitch) :
  (c <> On -> js_loose_neq v (field c s) = Some true) ->
  decodes [c] s ((assign (set_field c) v ;;
                  x <- this (field c) ;;
                  setValue config c x echo_tag) s).
Proof.
  intros Hne.
  destruct (write_then_push config c v s) as (_ & Hm & Hp & Hq).
  exists [(c, v)]. rewrite Hm, Hp, Hq. simpl.
  repeat split; auto using incl_refl.
  constructor; [intros [] | constructor].
Qed.

Lemma parse_member_quiet (message key : string) (s : ExampleSwitch) :
  mirror (parse_member message key s) = s /\ calls (parse_member message key s) = [].
Proof.
  unfold parse_member.
  destruct (JSON_parse message) as [[]|]; split; reflexivity.
Qed.

Lemma toString_method_quiet (v : jsval) (s : ExampleSwitch) :
  mirror (toString_method v s) = s /\ calls (toString_method v s) = [].
Proof.
  unfold toString_method.
  destruct (not_nullish v); [destruct (js_ToString v)|]; split; reflexivity.
Qed.

Lemma differs_quiet (x y : jsval) (s : ExampleSwitch) :
  mirror (differs x y s) = s /\ calls (differs x y s) = [].
Proof. unfold differs. destruct (js_loose_neq x y); split; reflexivity. Qed.

Lemma differs_normal (x y : jsval) (s : ExampleSwitch) (b : bool) :
  result (differs x y s) = Normal b -> js_loose_neq x y = Some b.
Proof.
  unfold differs. destruct (js_loose_neq x y); simpl; intros H; inversion H.
  reflexivity.
Qed.

Lemma concat_quiet (text : string) (v : jsval) (s : ExampleSwitch) :
  mirror (concat text v s) = s /\ calls (concat text v s) = [].
Proof. unfold concat. destruct (js_ToString v); split; reflexivity. Qed.

Lemma decodes_bind_parse_member (B : Type) (message key : string)
    (k : jsval -> M B) (L : list Characteristic) (s : ExampleSwitch) :
  (forall v, decodes L s (k v s)) ->
  decodes L s (bind (parse_member message key) k s).
Proof.
  intros Hk. destruct (parse_member_quiet message key s) as [Hm Hc].
  apply decodes_bind_quiet; auto; rewrite Hc; reflexivity.
Qed.

Lemma decodes_bind_toString_method (B : Type) (v : jsval)
    (k : string -> M B) (L : list Characteristic) (s : ExampleSwitch) :
  (forall text, decodes L s (k text s)) ->
  decodes L s (bind (toString_method v) k s).
Proof.
  intros Hk. destruct (toString_method_quiet v s) as [Hm Hc].
  apply decodes_bind_quiet; auto; rewrite Hc; reflexivity.
Qed.

Lemma decodes_bind_differs (B : Type) (x y : jsval)
    (k : bool -> M B) (L : list Characteristic) (s : ExampleSwitch) :
  (forall b, js_loose_neq x y = Some b -> decodes L s (k b s)) ->
  decodes L s (bind (differs x y) k s).
Proof.
  intros Hk. destruct (differs_quiet x y s) as [Hm Hc].
  apply decodes_bind_quiet; auto; try (rewrite Hc; reflexivity).
  intros b Hb. apply Hk. now apply (differs_normal x y s).
Qed.

Lemma decodes_bind_this (B : Type) (f : ExampleSwitch -> jsval)
    (k : jsval -> M B) (L : list Characteristic) (s : ExampleSwitch) :
  decodes L s (k (f s) s) -> decodes L s (bind (this f) k s).
Proof.
  intros Hk. apply decodes_bind_quiet; try reflexivity.
  intros a Ha. simpl in Ha. now inversion Ha; subst.
Qed.

Lemma decodes_bind_log (B : Type) (args : list string)
    (k : unit -> M B) (L : list Characteristic) (s : ExampleSwitch) :
  decodes L s (k tt s) -> decodes L s (bind (emit (log_info args)) k s).
Proof.
  intros Hk. apply decodes_bind_quiet; try reflexivity.
  intros [] _. exact Hk.
Qed.

(** The candidate of one field of the composite message: compared with the
    field, and written and pushed when [!=] tells them apart. *)
Lemma decodes_candidate (config : AccessoryConfig) (c : Characteristic)
    (candidate : jsval) (s : ExampleSwitch) :
  decodes [c] s
    ((cur <- this (field c) ;;
      changed <- differs candidate cur ;;
      when changed (
        assign (set_field c) candidate ;;
        x <- this (field c) ;;
        setValue config c x echo_tag)) s).
Proof.
  apply decodes_bind_this, decodes_bind_differs. intros b Hb.
  apply decodes_when. intros ->.
  apply decodes_write_then_push. intros _. exact Hb.
Qed.

Ltac forget_fields :=
  match goal with
  | |- decodes _ ?s0 _ => generalize s0; intro
  end.

Ltac distinct_fields :=
  let c := fresh "c" in
  intros c; simpl; intuition (subst; discriminate).

(** The ['message'] listener, whatever the topic and the text: it writes
    each field at most once, pushes what it writes, and publishes nothing. *)
Lemma on_message_decodes (config : AccessoryConfig) (topic message : string)
    (s : ExampleSwitch) :
  decodes [On; Brightness; ColorTemperature; Hue; Saturation] s
    (on_message config topic message s).
Proof.
  unfold on_message.
  apply decodes_bind_log.
  apply decodes_bind with (L1 := [On]) (L2 := [Brightness; ColorTemperature; Hue; Saturation]);
    [ | | distinct_fields ].
  { apply decodes_when. intros _.
    apply (decodes_write_then_push config On). intros Hon. now elim Hon. }
  intros _ _. forget_fields. apply decodes_when. intros _.
  apply decodes_bind_parse_member. intros dimmer.
  apply decodes_bind with (L1 := [Brightness]) (L2 := [ColorTemperature; Hue; Saturation]);
    [ | | distinct_fields ].
  { apply decodes_when. intros _.
    apply decodes_bind_parse_member. intros newB.
    apply (decodes_candidate config Brightness). }
  intros _ _. forget_fields.
  apply decodes_bind_parse_member. intros ct.
  apply decodes_bind with (L1 := [ColorTemperature]) (L2 := [Hue; Saturation]);
    [ | | distinct_fields ].
  { apply decodes_when. intros _.
    apply decodes_bind_parse_member. intros newCT.
    apply (decodes_candidate config ColorTemperature). }
  intros _ _. forget_fields.
  apply decodes_bind_parse_member. intros hsb.
  apply decodes_bind with (L1 := [Hue]) (L2 := [Saturation]);
    [ | | distinct_fields ].
  { apply decodes_when. intros _.
    apply decodes_bind_parse_member. intros hsb'.
    apply decodes_bind_toString_method. intros text.
    apply (decodes_candidate config Hue). }
  intros _ _. forget_fields.
  apply decodes_bind_parse_member. intros hsb2.
  apply decodes_when. intros _.
  apply decodes_bind_parse_member. intros hsb2'.
  apply decodes_bind_toString_method. intros text.
  apply (decodes_candidate config Saturation).
Qed.

End Reasoning.
(** ** Properties of the listeners *)

Import IntegerNumbers JsonText.
Local Open Scope list_scope.

Lemma Characteristic_eq_dec (c c' : Characteristic) : {c = c'} + {c <> c'}.
Proof. decide equality. Defined.

Lemma parse_dimmer_42 :
  JSON_parse Example.dimmer_42 = Some (JObj [("Dimmer"%string, JNum 42%Z)]).
Proof. reflexivity. Qed.

Lemma parse_hsb_120_50_80 :
  JSON_parse Example.hsb_120_50_80
  = Some (JObj [("HSBColor"%string, JStr "120,50,80")]).
Proof. reflexivity. Qed.

Lemma parse_not_json : JSON_parse Example.not_json = None.
Proof. reflexivity. Qed.

Lemma tasmota_topics_differ :
  getRes (topics Example.tasmota) <> getOn (topics Example.tasmota).
Proof. discriminate. Qed.

(** A SET whose context is the tag: it writes no field, publishes and pushes
    nothing; it ends normally when its log line can be written. *)
Lemma tagged_SET (N : JSNumber) (config : AccessoryConfig) (c : Characteristic)
    (v : jsval) (s : ExampleSwitch) :
  mirror (SET config c v echo_tag s) = s /\
  publishes (calls (SET config c v echo_tag s)) = [] /\
  pushes (calls (SET config c v echo_tag s)) = [] /\
  (loggable c s -> result (SET config c v echo_tag s) = Normal tt).
Proof.
  destruct s as [on b ct h sat].
  destruct c; cbv -[js_ToString]; try (repeat split; reflexivity);
    match goal with
    | |- context [js_ToString ?x] => destruct (js_ToString x) as [text|]
    end; repeat split; try reflexivity; intros [text' Htext]; discriminate Htext.
Qed.

(** C1. Whatever message the ['message'] listener receives, it publishes
    nothing on MQTT, every value it pushes to a characteristic carries the
    context ['fromSetValue'], and every field it leaves changed has been
    pushed, with its new value and that context; and a SET whose context is
    ['fromSetValue'] publishes nothing. *)
Theorem remote_update_pushed_tagged_never_published :
  forall (N : JSNumber) (J : JSON) (config : AccessoryConfig)
         (topic message : string) (s : ExampleSwitch),
    let o := on_message config topic message s in
    publishes (calls o) = [] /\
    (forall c v ctx, In (c, v, ctx) (pushes (calls o)) -> ctx = echo_tag) /\
    (forall c, field c (mirror o) <> field c s ->
               In (c, field c (mirror o), echo_tag) (pushes (calls o))) /\
    (forall c v s', publishes (calls (SET config c v echo_tag s')) = []).
Proof.
  intros N J config topic message s o.
  destruct (on_message_decodes config topic message s)
    as (us & Hin & Hnd & Hm & Hp & Hq & Hne).
  fold o in Hm, Hp, Hq.
  split; [exact Hq|]. split; [|split].
  - intros c v ctx Hpush. rewrite Hp in Hpush.
    apply in_map_iff in Hpush. destruct Hpush as (u & Hu & _).
    unfold tagged in Hu. now inversion Hu.
  - intros c Hchanged. rewrite Hm in *. rewrite Hp.
    destruct (in_dec Characteristic_eq_dec c (map fst us)) as [Hc | Hc].
    + apply in_map_iff in Hc. destruct Hc as ([c' v] & Hfst & Hu).
      simpl in Hfst. subst c'.
      rewrite (field_apply_updates_in us s c v Hnd Hu).
      change (c, v, echo_tag) with (tagged (c, v)). now apply in_map.
    + elim Hchanged. now apply field_apply_updates_other.
  - intros c v s'. exact (proj1 (proj2 (tagged_SET N config c v s'))).
Qed.

Lemma remote_update_pushed_tagged_never_published_witness :
  publishes (calls (on_message Example.tasmota "stat/bulb/POWER" "ON" constructed)) = [] /\
  In (On, JBool true, echo_tag)
     (pushes (calls (on_message Example.tasmota "stat/bulb/POWER" "ON" constructed))).
Proof.
  destruct (remote_update_pushed_tagged_never_published ZNumber IntegerJSON
              Example.tasmota "stat/bulb/POWER" "ON" constructed)
    as (Hq & _ & Hchanged & _).
  split; [exact Hq|]. apply (Hchanged On). discriminate.
Defined.

(** C2, as the listener has it.  A message on the composite topic (which is
    not also the power topic) whose text [JSON.parse] rejects: the listener
    logs the message, pushes nothing, publishes nothing and leaves the five
    fields as they were; it ends with the SyntaxError of [JSON.parse], which
    it neither catches nor logs. *)
Theorem malformed_json_changes_nothing_and_raises :
  forall (N : JSNumber) (J : JSON) (config : AccessoryConfig)
         (message : string) (s : ExampleSwitch),
    JSON_parse message = None ->
    getRes (topics config) <> getOn (topics config) ->
    let o := on_message config (getRes (topics config)) message s in
    result o = Throw SyntaxError /\
    mirror o = s /\
    pushes (calls o) = [] /\
    publishes (calls o) = [] /\
    calls o = [log_info [message; getRes (topics config)]].
Proof.
  intros N J config message s Hparse Hdiff o. subst o.
  unfold on_message, parse_member.
  apply String.eqb_neq in Hdiff.
  rewrite Hdiff, String.eqb_refl, Hparse.
  repeat split; reflexivity.
Qed.

Lemma malformed_json_changes_nothing_and_raises_witness :
  JSON_parse Example.not_json = None /\
  getRes (topics Example.tasmota) <> getOn (topics Example.tasmota) /\
  mirror (on_message Example.tasmota (getRes (topics Example.tasmota))
            Example.not_json constructed) = constructed.
Proof.
  split; [exact parse_not_json|]. split; [exact tasmota_topics_differ|].
  exact (proj1 (proj2 (malformed_json_changes_nothing_and_raises ZNumber IntegerJSON
                         Example.tasmota Example.not_json constructed
                         parse_not_json tasmota_topics_differ))).
Defined.

(** C2 as stated fails: on the composite topic, with a text that is not
    JSON, the listener does not end normally; it ends with a SyntaxError and
    the only line it logged is the incoming message. *)
Lemma malformed_json_is_raised :
  JSON_parse Example.not_json = None /\
  result (on_message Example.tasmota "stat/bulb/RESULT" Example.not_json constructed)
  <> Normal tt /\
  result (on_message Example.tasmota "stat/bulb/RESULT" Example.not_json constructed)
  = Throw SyntaxError /\
  calls (on_message Example.tasmota "stat/bulb/RESULT" Example.not_json constructed)
  = [log_info [Example.not_json; "stat/bulb/RESULT"%string]].
Proof.
  assert (Hraised :
            result (on_message Example.tasmota "stat/bulb/RESULT"
                      Example.not_json constructed) = Throw SyntaxError)
    by reflexivity.
  split; [exact parse_not_json|].
  split; [rewrite Hraised; discriminate|].
  split; [exact Hraised | reflexivity].
Qed.

(** C3. A SET whose context is not ['fromSetValue'] writes the value in the
    field of its characteristic and publishes once, on the set topic of the
    characteristic: ["ON"] or ["OFF"] for a boolean on [On], the decimal
    text of the number on the four others; the callback is called without
    error and a GET that follows returns the value.  With brightness 75 the
    one publish is ["75"] on [setBrightness] and the GET returns 75. *)
Theorem local_set_writes_publishes_once_and_get_returns :
  (forall (N : JSNumber) (J : JSON) (config : AccessoryConfig)
          (b : bool) (context : jsval) (s : ExampleSwitch),
      js_strict_neq_string context "fromSetValue" = true ->
      let o := SET config On (JBool b) context s in
      result o = Normal tt /\
      mirror o = set_field On (JBool b) s /\
      publishes (calls o) = [(setOn (topics config), if b then "ON" else "OFF")%string] /\
      result (GET On (mirror o)) = Normal (JBool b)) /\
  (forall (N : JSNumber) (J : JSON) (config : AccessoryConfig)
          (c : Characteristic) (n : num) (context : jsval) (s : ExampleSwitch),
      c <> On ->
      js_strict_neq_string context "fromSetValue" = true ->
      let o := SET config c (JNum n) context s in
      result o = Normal tt /\
      mirror o = set_field c (JNum n) s /\
      publishes (calls o) = [(set_topic config c, num_toString n)] /\
      result (GET c (mirror o)) = Normal (JNum n)) /\
  (forall (config : AccessoryConfig) (context : jsval) (s : ExampleSwitch),
      js_strict_neq_string context "fromSetValue" = true ->
      let o := SET config Brightness (JNum 75%Z) context s in
      publishes (calls o) = [(setBrightness (topics config), "75"%string)] /\
      result (GET Brightness (mirror o)) = Normal (JNum 75%Z)).
Proof.
  split; [|split].
  - intros N J config b context s Huntagged o. subst o.
    unfold SET, On_SET. rewrite Huntagged.
    destruct b; repeat split; reflexivity.
  - intros N J config c n context s Hc Huntagged o. subst o.
    destruct c; try (now elim Hc);
      unfold SET, Brightness_SET, ColorTemperature_SET, Hue_SET, Saturation_SET;
      rewrite Huntagged; repeat split; reflexivity.
  - intros config context s Huntagged o. subst o.
    unfold SET, Brightness_SET. rewrite Huntagged.
    split; reflexivity.
Qed.

Lemma local_set_writes_publishes_once_and_get_returns_witness :
  js_strict_neq_string JUndefined "fromSetValue" = true /\
  publishes (calls (SET Example.tasmota Brightness (JNum 75%Z) JUndefined constructed))
  = [("cmnd/bulb/Dimmer", "75")%string] /\
  result (GET Brightness
            (mirror (SET Example.tasmota Brightness (JNum 75%Z) JUndefined constructed)))
  = Normal (JNum 75%Z).
Proof.
  split; [reflexivity|].
  exact (proj2 (proj2 local_set_writes_publishes_once_and_get_returns)
           Example.tasmota JUndefined constructed eq_refl).
Defined.

(** C4. A message on the power topic (which is not also the composite
    topic): the listener ends normally, [lightbulbOn] is the boolean
    [message == "ON"], one value is pushed, that boolean on [On] with the
    tag, nothing is published and the four other fields are unchanged. *)
Theorem power_message_sets_power_only :
  forall (N : JSNumber) (J : JSON) (config : AccessoryConfig)
         (message : string) (s : ExampleSwitch),
    getOn (topics config) <> getRes (topics config) ->
    let o := on_message config (getOn (topics config)) message s in
    result o = Normal tt /\
    lightbulbOn (mirror o) = JBool (message =? "ON")%string /\
    (message = "ON"%string -> lightbulbOn (mirror o) = JBool true) /\
    (message <> "ON"%string -> lightbulbOn (mirror o) = JBool false) /\
    pushes (calls o) = [(On, JBool (message =? "ON")%string, echo_tag)] /\
    publishes (calls o) = [] /\
    (forall c, c <> On -> field c (mirror o) = field c s).
Proof.
  intros N J config message s Hdiff o. subst o.
  unfold on_message.
  apply String.eqb_neq in Hdiff. rewrite Hdiff, String.eqb_refl.
  repeat split; try reflexivity.
  - intros ->. reflexivity.
  - intros Hoff. apply String.eqb_neq in Hoff.
    simpl. now rewrite Hoff.
  - intros c Hc. destruct c; try reflexivity. now elim Hc.
Qed.

Lemma power_message_sets_power_only_witness :
  getOn (topics Example.tasmota) <> getRes (topics Example.tasmota) /\
  lightbulbOn (mirror (on_message Example.tasmota "stat/bulb/POWER" "ON" constructed))
  = JBool true /\
  lightbulbOn (mirror (on_message Example.tasmota "stat/bulb/POWER" "off" constructed))
  = JBool false.
Proof.
  assert (Hdiff : getOn (topics Example.tasmota) <> getRes (topics Example.tasmota))
    by discriminate.
  split; [exact Hdiff|]. split.
  - exact (proj1 (proj2 (power_message_sets_power_only ZNumber IntegerJSON
                           Example.tasmota "ON" constructed Hdiff))).
  - exact (proj1 (proj2 (power_message_sets_power_only ZNumber IntegerJSON
                           Example.tasmota "off" constructed Hdiff))).
Defined.



(** C6 fails on the code.  After the message [{"HSBColor":"120,50,80"}] on
    the composite topic of a fresh accessory, two values are pushed, the
    first component on [Hue] and the second on [Saturation]; but the fields
    hold the texts ["120"] and ["50"] that [split] returns, not the numbers
    120 and 50: they are not of the declared type, and a GET of the hue
    hands the text to the host. *)
Theorem hsbcolor_components_are_stored_as_text :
  result (on_message Example.tasmota "stat/bulb/RESULT" Example.hsb_120_50_80 constructed)
  = Normal tt /\
  pushes (calls (on_message Example.tasmota "stat/bulb/RESULT"
                   Example.hsb_120_50_80 constructed))
  = [(Hue, JStr "120", echo_tag); (Saturation, JStr "50", echo_tag)] /\
  mirror (on_message Example.tasmota "stat/bulb/RESULT" Example.hsb_120_50_80 constructed)
  = set_lightbulbSat (JStr "50") (set_lightbulbHue (JStr "120") constructed) /\
  lightbulbHue (mirror (on_message Example.tasmota "stat/bulb/RESULT"
                          Example.hsb_120_50_80 constructed)) <> JNum 120%Z /\
  lightbulbSat (mirror (on_message Example.tasmota "stat/bulb/RESULT"
                          Example.hsb_120_50_80 constructed)) <> JNum 50%Z /\
  ~ of_declared_type Hue
      (lightbulbHue (mirror (on_message Example.tasmota "stat/bulb/RESULT"
                               Example.hsb_120_50_80 constructed))) /\
  result (GET Hue (mirror (on_message Example.tasmota "stat/bulb/RESULT"
                             Example.hsb_120_50_80 constructed)))
  = Normal (JStr "120").
Proof.
  assert (Hm : mirror (on_message Example.tasmota "stat/bulb/RESULT"
                         Example.hsb_120_50_80 constructed)
               = set_lightbulbSat (JStr "50") (set_lightbulbHue (JStr "120") constructed))
    by reflexivity.
  split; [reflexivity|]. split; [reflexivity|]. split; [exact Hm|].
  rewrite Hm. simpl.
  split; [discriminate|]. split; [discriminate|]. split; [intros []|]. reflexivity.
Qed.

Lemma bind_agree (N : JSNumber) (A B : Type) (m m' : M A) (k k' : A -> M B)
    (s : ExampleSwitch) :
  m s = m' s -> (forall a s1, k a s1 = k' a s1) -> bind m k s = bind m' k' s.
Proof.
  intros Hm Hk. unfold bind. rewrite Hm.
  destruct (m' s) as [[a|e] s1 t1]; [|reflexivity]. now rewrite Hk.
Qed.

Lemma when_agree (N : JSNumber) (b : bool) (m m' : M unit) (s : ExampleSwitch) :
  m s = m' s -> when b m s = when b m' s.
Proof. intros Hm. destruct b; [exact Hm | reflexivity]. Qed.

(** Writing a field with the value it holds changes nothing. *)
Lemma set_field_field (N : JSNumber) (c : Characteristic) (s : ExampleSwitch) :
  set_field c (field c s) s = s.
Proof. destruct c, s; reflexivity. Qed.

(** The push after a write reaches the listener with the value that the
    field holds at that moment. *)
Lemma push_agree (N : JSNumber) (L1 L2 : Characteristic -> jsval -> jsval -> M unit)
    (c : Characteristic) (v : jsval) (s : ExampleSwitch) :
  (forall c s, L1 c (field c s) echo_tag s = L2 c (field c s) echo_tag s) ->
  (assign (set_field c) v ;; x <- this (field c) ;; setValue_to L1 c x echo_tag) s
  = (assign (set_field c) v ;; x <- this (field c) ;; setValue_to L2 c x echo_tag) s.
Proof.
  intros Hagree. cbv [bind assign this setValue_to emit].
  now rewrite (Hagree c (set_field c v s)).
Qed.

(** The ['message'] listener calls the SET listeners only with the tag and
    with the value that the field of the characteristic holds when they run. *)
Lemma on_message_to_agree (N : JSNumber) (J : JSON) (config : AccessoryConfig)
    (L1 L2 : Characteristic -> jsval -> jsval -> M unit) :
  (forall c s, L1 c (field c s) echo_tag s = L2 c (field c s) echo_tag s) ->
  forall (topic message : string) (s : ExampleSwitch),
    on_message_to config L1 topic message s = on_message_to config L2 topic message s.
Proof.
  intros Hagree topic message s. unfold on_message_to.
  apply bind_agree; [reflexivity | intros _ s0].
  apply bind_agree.
  - apply when_agree. apply (push_agree N L1 L2 On). exact Hagree.
  - intros _ s1. apply when_agree.
    apply bind_agree; [reflexivity | intros dimmer s2].
    apply bind_agree.
    + apply when_agree. apply bind_agree; [reflexivity | intros newB s3].
      apply bind_agree; [reflexivity | intros b s4].
      apply bind_agree; [reflexivity | intros changed s5].
      apply when_agree. apply (push_agree N L1 L2 Brightness). exact Hagree.
    + intros _ s3. apply bind_agree; [reflexivity | intros ct s4].
      apply bind_agree.
      * apply when_agree. apply bind_agree; [reflexivity | intros newCT s5].
        apply bind_agree; [reflexivity | intros c s6].
        apply bind_agree; [reflexivity | intros changed s7].
        apply when_agree. apply (push_agree N L1 L2 ColorTemperature). exact Hagree.
      * intros _ s5. apply bind_agree; [reflexivity | intros hsb s6].
        apply bind_agree.
        -- apply when_agree. apply bind_agree; [reflexivity | intros hsb' s7].
           apply bind_agree; [reflexivity | intros text s8].
           apply bind_agree; [reflexivity | intros h s9].
           apply bind_agree; [reflexivity | intros changed s10].
           apply when_agree. apply (push_agree N L1 L2 Hue). exact Hagree.
        -- intros _ s7. apply bind_agree; [reflexivity | intros hsb2 s8].
           apply when_agree. apply bind_agree; [reflexivity | intros hsb2' s9].
           apply bind_agree; [reflexivity | intros text s10].
           apply bind_agree; [reflexivity | intros sat s11].
           apply bind_agree; [reflexivity | intros changed s12].
           apply when_agree. apply (push_agree N L1 L2 Saturation). exact Hagree.
Qed.

(** C7, as the listeners have it.  A SET whose context is ['fromSetValue']
    leaves the five fields as they are, publishes nothing and pushes nothing
    (and ends normally whenever its log line can be written).  It need not
    write the value: on the echo path the slot holds it already when the SET
    listener runs.  The ['message'] listener, which is [on_message_to] with
    the SET listeners, calls them only with the tag and with the value that
    the field of the characteristic holds at that moment, so any two
    listeners that agree on such calls give the same reaction; a SET
    listener that first wrote the value in the slot would change nothing,
    neither the fields nor one call. *)
Theorem tagged_set_keeps_mirror_and_publishes_nothing :
  forall (N : JSNumber) (J : JSON) (config : AccessoryConfig),
    (forall (c : Characteristic) (v : jsval) (s : ExampleSwitch),
        mirror (SET config c v echo_tag s) = s /\
        publishes (calls (SET config c v echo_tag s)) = [] /\
        pushes (calls (SET config c v echo_tag s)) = [] /\
        (loggable c s -> result (SET config c v echo_tag s) = Normal tt)) /\
    (forall (topic message : string) (s : ExampleSwitch),
        on_message config topic message s
        = on_message_to config (SET config) topic message s) /\
    (forall L1 L2 : Characteristic -> jsval -> jsval -> M unit,
        (forall c s, L1 c (field c s) echo_tag s = L2 c (field c s) echo_tag s) ->
        forall (topic message : string) (s : ExampleSwitch),
          on_message_to config L1 topic message s
          = on_message_to config L2 topic message s) /\
    (forall (topic message : string) (s : ExampleSwitch),
        on_message_to config
          (fun c v context => assign (set_field c) v ;; SET config c v context)
          topic message s
        = on_message config topic message s).
Proof.
  intros N J config. split; [|split; [|split]].
  - intros c v s. exact (tagged_SET N config c v s).
  - intros topic message s. reflexivity.
  - exact (on_message_to_agree N J config).
  - intros topic message s.
    change (on_message config topic message s)
      with (on_message_to config (SET config) topic message s).
    apply on_message_to_agree. intros c s0.
    unfold bind, assign. simpl. rewrite set_field_field.
    destruct (SET config c (field c s0) echo_tag s0) as [r s1 t1]. reflexivity.
Qed.

Lemma tagged_set_keeps_mirror_and_publishes_nothing_witness :
  mirror (SET Example.tasmota Brightness (JNum 50%Z) echo_tag constructed) = constructed /\
  on_message_to Example.tasmota
    (fun c v context => assign (set_field c) v ;; SET Example.tasmota c v context)
    "stat/bulb/RESULT" Example.hsb_120_50_80 constructed
  = on_message Example.tasmota "stat/bulb/RESULT" Example.hsb_120_50_80 constructed.
Proof.
  destruct (tagged_set_keeps_mirror_and_publishes_nothing ZNumber IntegerJSON
              Example.tasmota) as (Hset & _ & _ & Hwrite).
  split.
  - exact (proj1 (Hset Brightness (JNum 50%Z) constructed)).
  - exact (Hwrite "stat/bulb/RESULT"%string Example.hsb_120_50_80 constructed).
Defined.

(** C7 as stated fails: a SET of brightness 50 with the context
    ['fromSetValue'] does not write 50 in the field, which keeps its 0. *)
Lemma tagged_set_does_not_write :
  lightbulbBrightness
    (mirror (SET Example.tasmota Brightness (JNum 50%Z) echo_tag constructed))
  = JNum 0%Z /\
  lightbulbBrightness
    (mirror (SET Example.tasmota Brightness (JNum 50%Z) echo_tag constructed))
  <> JNum 50%Z.
Proof.
  assert (Hkept :
            lightbulbBrightness
              (mirror (SET Example.tasmota Brightness (JNum 50%Z) echo_tag constructed))
            = JNum 0%Z)
    by reflexivity.
  split; [exact Hkept|]. rewrite Hkept. discriminate.
Qed.

(** C8 fails on the code.  The fields are of their declared types when the
    accessory is constructed; after the message [{"HSBColor":"120"}] on the
    composite topic [lightbulbSat] is [undefined] and [lightbulbHue] is the
    text ["120"], and [undefined] has been pushed to the Saturation
    characteristic. *)
Theorem hsbcolor_one_component_makes_saturation_undefined :
  fully_defined constructed /\
  result (on_message Example.tasmota "stat/bulb/RESULT" Example.hsb_120 constructed)
  = Normal tt /\
  mirror (on_message Example.tasmota "stat/bulb/RESULT" Example.hsb_120 constructed)
  = set_lightbulbSat JUndefined (set_lightbulbHue (JStr "120") constructed) /\
  pushes (calls (on_message Example.tasmota "stat/bulb/RESULT" Example.hsb_120 constructed))
  = [(Hue, JStr "120", echo_tag); (Saturation, JUndefined, echo_tag)] /\
  ~ fully_defined
      (mirror (on_message Example.tasmota "stat/bulb/RESULT" Example.hsb_120 constructed)).
Proof.
  split; [intros []; exact I|].
  split; [reflexivity|].
  split; [reflexivity|].
  split; [reflexivity|].
  intros Hdef. exact (Hdef Saturation).
Qed.

(** A GET writes no field, publishes nothing and pushes nothing. *)
Lemma GET_quiet (N : JSNumber) (c : Characteristic) (s : ExampleSwitch) :
  mirror (GET c s) = s /\
  publishes (calls (GET c s)) = [] /\
  pushes (calls (GET c s)) = [].
Proof.
  destruct s as [on b ct h sat].
  destruct c; cbv -[js_ToString]; try (repeat split; reflexivity);
    match goal with
    | |- context [js_ToString ?x] => destruct (js_ToString x) as [text|]
    end; repeat split; reflexivity.
Qed.

(** A GET hands the field to the callback when its log line can be written. *)
Lemma GET_returns (N : JSNumber) (c : Characteristic) (s : ExampleSwitch) :
  loggable c s -> result (GET c s) = Normal (field c s).
Proof.
  destruct s as [on b ct h sat].
  destruct c; simpl; intros Hlog; try reflexivity;
    destruct Hlog as [text Htext]; cbv -[js_ToString]; cbv -[js_ToString] in Htext;
    rewrite Htext; reflexivity.
Qed.

Lemma declared_type_loggable (N : JSNumber) (c : Characteristic) (s : ExampleSwitch) :
  of_declared_type c (field c s) -> loggable c s.
Proof.
  destruct c; simpl; auto; intros Htyped;
    match goal with
    | |- exists _, js_ToString ?x = _ => destruct x; try contradiction
    end; eexists; reflexivity.
Qed.

(** C9, as the listeners have it.  In every state a GET writes no field,
    publishes nothing and pushes nothing.  It hands the field of its
    characteristic to the callback, without error, whenever the field can be
    written in its log line: always for [On], and for the others whenever the
    field has a text, as every value of the declared type has.  Any number of
    GETs in a row all end the same way and leave the fields as they were. *)
Theorem get_returns_mirror_without_side_effect :
  forall (N : JSNumber) (c : Characteristic) (s : ExampleSwitch),
    (mirror (GET c s) = s /\
     publishes (calls (GET c s)) = [] /\
     pushes (calls (GET c s)) = []) /\
    (loggable c s -> result (GET c s) = Normal (field c s)) /\
    (of_declared_type c (field c s) -> result (GET c s) = Normal (field c s)) /\
    (forall n : nat,
        let '(returned, s', t) := GET_repeatedly n c s in
        returned = repeat (result (GET c s)) n /\
        s' = s /\
        publishes t = [] /\
        pushes t = []).
Proof.
  intros N c s. split; [exact (GET_quiet N c s)|].
  split; [exact (GET_returns N c s)|].
  split; [intros Htyped; apply GET_returns; now apply declared_type_loggable|].
  intros n. induction n as [|n IH]; simpl.
  - repeat split; reflexivity.
  - destruct (GET_quiet N c s) as (Hm & Hq & Hp).
    rewrite Hm.
    destruct (GET_repeatedly n c s) as [[returned s'] t].
    destruct IH as (IHr & IHs & IHq & IHp).
    rewrite IHr, publishes_app, pushes_app, Hq, Hp, IHq, IHp.
    repeat split; auto.
Qed.

Lemma get_returns_mirror_without_side_effect_witness :
  loggable Hue constructed /\
  result (GET Hue constructed) = Normal (JNum 0%Z) /\
  fst (fst (GET_repeatedly 3 Hue constructed)) = repeat (Normal (JNum 0%Z)) 3.
Proof.
  assert (Hlog : loggable Hue constructed) by (eexists; reflexivity).
  split; [exact Hlog|].
  destruct (get_returns_mirror_without_side_effect ZNumber Hue constructed)
    as (_ & Hreturns & _ & Hrepeat).
  split; [exact (Hreturns Hlog)|].
  specialize (Hrepeat 3).
  destruct (GET_repeatedly 3 Hue constructed) as [[returned s'] t].
  destruct Hrepeat as (Hr & _). rewrite Hr, (Hreturns Hlog). reflexivity.
Defined.

Lemma parse_dimmer_object :
  JSON_parse Example.dimmer_object
  = Some (JObj [("Dimmer"%string, JObj [("a"%string, JNum 1%Z)])]).
Proof. reflexivity. Qed.

Lemma parse_dimmer_toString :
  JSON_parse Example.dimmer_toString
  = Some (JObj [("Dimmer"%string, JObj [("toString"%string, JNum 1%Z)])]).
Proof. reflexivity. Qed.

(** C9 as stated fails: a GET does not always succeed.  After the messages
    [{"Dimmer":{"a":1}}] and [{"Dimmer":{"toString":1}}] on the composite
    topic of a fresh accessory, the brightness field holds an object that
    has no text, and the GET of the brightness ends with a TypeError instead
    of handing the field to the callback. *)
Lemma get_raises_on_unprintable_field :
  mirror (on_message Example.tasmota "stat/bulb/RESULT" Example.dimmer_toString
            (mirror (on_message Example.tasmota "stat/bulb/RESULT"
                       Example.dimmer_object constructed)))
  = Example.brightness_unprintable /\
  result (GET Brightness Example.brightness_unprintable) = Throw TypeError /\
  result (GET Brightness Example.brightness_unprintable)
  <> Normal (field Brightness Example.brightness_unprintable).
Proof.
  assert (Hraised : result (GET Brightness Example.brightness_unprintable)
                    = Throw TypeError) by reflexivity.
  split; [reflexivity|]. split; [exact Hraised|].
  rewrite Hraised. discriminate.
Qed.

(** C10. A listener's end, the fields it leaves and the calls it makes are
    determined by the event and the fields: two reactions to the same event
    from the same fields agree.  The reaction to a message is the same under
    two configurations with the same two inbound topics; the reaction to a
    SET is the same under two configurations with the same set topic for its
    characteristic; what a GET returns and logs is the same from any two
    states of the fields that agree on the field of its characteristic. *)
Theorem listeners_are_deterministic :
  forall (N : JSNumber) (J : JSON) (config config' : AccessoryConfig),
    (forall s e r1 s1 t1 r2 s2 t2,
        handles config s e r1 s1 t1 -> handles config s e r2 s2 t2 ->
        r1 = r2 /\ s1 = s2 /\ t1 = t2) /\
    (forall s e, exists r s' t, handles config s e r s' t) /\
    (getOn (topics config) = getOn (topics config') ->
     getRes (topics config) = getRes (topics config') ->
     forall topic message s,
       on_message config topic message s = on_message config' topic message s) /\
    (forall c, set_topic config c = set_topic config' c ->
               forall v ctx s, SET config c v ctx s = SET config' c v ctx s) /\
    (forall c s s', field c s = field c s' ->
                    result (GET c s) = result (GET c s') /\
                    calls (GET c s) = calls (GET c s')).
Proof.
  intros N J config config'. split; [|split; [|split; [|split]]].
  - intros s e r1 s1 t1 r2 s2 t2 H1 H2.
    destruct H1; inversion H2; subst; repeat split; reflexivity.
  - intros s [topic message | c | c v ctx].
    + eexists _, _, _. now apply (handles_message config s topic message).
    + eexists _, _, _. now apply (handles_get config s c).
    + eexists _, _, _. now apply (handles_set config s c v ctx).
  - intros HgetOn HgetRes topic message s.
    unfold on_message. rewrite HgetOn, HgetRes. reflexivity.
  - intros c Htopic v ctx s.
    destruct c; simpl in Htopic;
      unfold SET, On_SET, Brightness_SET, ColorTemperature_SET, Hue_SET, Saturation_SET;
      rewrite Htopic; reflexivity.
  - intros c s s' Hfield.
    destruct s as [on b ct h sat], s' as [on' b' ct' h' sat'].
    destruct c; simpl in Hfield; subst; cbv -[js_ToString];
      try match goal with
          | |- context [js_ToString ?x] => destruct (js_ToString x) as [text|]
          end; split; reflexivity.
Qed.

Lemma listeners_are_deterministic_witness :
  getOn (topics Example.tasmota) = getOn (topics Example.renamed) /\
  getRes (topics Example.tasmota) = getRes (topics Example.renamed) /\
  on_message Example.tasmota "stat/bulb/RESULT" Example.dimmer_42 constructed
  = on_message Example.renamed "stat/bulb/RESULT" Example.dimmer_42 constructed.
Proof.
  split; [reflexivity|]. split; [reflexivity|].
  exact (proj1 (proj2 (proj2 (listeners_are_deterministic ZNumber IntegerJSON
                                Example.tasmota Example.renamed)))
           eq_refl eq_refl "stat/bulb/RESULT"%string Example.dimmer_42 constructed).
Defined.


(** ** The listener as a decoder: rules and the reading of [on_message] *)

Section DecoderFacts.
Context {N : JSNumber} {J : JSON}.

Lemma yields_ret (s : ExampleSwitch) : yields (ret tt) s (Normal tt, s, []).
Proof. repeat split; reflexivity. Qed.

(** A step that only computes a value. *)
Lemma yields_bind_value (A : Type) (m : M A) (k : A -> M unit)
    (s : ExampleSwitch) (a : A) (d : decoded) :
  m s = ret a s ->
  yields (k a) s d ->
  yields (bind m k) s d.
Proof.
  unfold yields, bind. intros Hm (Hr & Hs & Hp & Hq). rewrite Hm. simpl.
  destruct (k a s) as [r s' t]. simpl in *. repeat split; assumption.
Qed.

(** A step that raises. *)
Lemma yields_bind_raise (A : Type) (m : M A) (k : A -> M unit)
    (s : ExampleSwitch) (e : exn) :
  m s = throw e s ->
  yields (bind m k) s (Throw e, s, []).
Proof.
  unfold yields, bind. intros Hm. rewrite Hm. repeat split; reflexivity.
Qed.

Lemma yields_bind_log (args : list string) (k : unit -> M unit)
    (s : ExampleSwitch) (d : decoded) :
  yields (k tt) s d ->
  yields (bind (emit (log_info args)) k) s d.
Proof.
  unfold yields, bind. intros (Hr & Hs & Hp & Hq). simpl.
  destruct (k tt s) as [r s' t]. simpl in *. repeat split; assumption.
Qed.

(** One block after another. *)
Lemma yields_followed (m : M unit) (k : unit -> M unit) (s : ExampleSwitch)
    (first : decoded) (next : ExampleSwitch -> decoded) :
  yields m s first ->
  (forall s1, yields (k tt) s1 (next s1)) ->
  yields (bind m k) s (followed first next).
Proof.
  unfold yields, bind, followed, ending, fields_of, updates_of.
  intros (Hr & Hs & Hp & Hq) Hnext.
  destruct first as [[r1 s1] u1]. simpl in Hr, Hs, Hp, Hq.
  destruct (m s) as [r s' t]. simpl in Hr, Hs, Hp, Hq. subst r s'.
  destruct r1 as [[]|e].
  - destruct (Hnext s1) as (Hr2 & Hs2 & Hp2 & Hq2).
    destruct (next s1) as [[r2 s2] u2]. simpl in Hr2, Hs2, Hp2, Hq2.
    destruct (k tt s1) as [r s' t']. simpl in Hr2, Hs2, Hp2, Hq2. simpl.
    rewrite pushes_app, publishes_app, map_app, Hp, Hp2, Hq, Hq2.
    repeat split; auto.
  - simpl. repeat split; auto.
Qed.

(** The comparison of a candidate with its field, and what follows it. *)
Lemma yields_settle (config : AccessoryConfig) (c : Characteristic) (v : jsval)
    (s : ExampleSwitch) :
  yields (cur <- this (field c) ;;
          changed <- differs v cur ;;
          when changed (
            assign (set_field c) v ;;
            x <- this (field c) ;;
            setValue config c x echo_tag))
         s (settle c (Normal (Some v)) s).
Proof.
  apply (yields_bind_value _ _ _ s (field c s)); [reflexivity|].
  unfold settle, differs.
  destruct (js_loose_neq v (field c s)) as [[|]|].
  - apply (yields_bind_value _ _ _ s true); [reflexivity|]. simpl.
    destruct (write_then_push config c v s) as (Hr & Hm & Hp & Hq).
    repeat split; assumption.
  - apply (yields_bind_value _ _ _ s false); [reflexivity|]. apply yields_ret.
  - now apply yields_bind_raise.
Qed.

(** Once the text has parsed to a value other than [null], reading a member
    of it is a plain value. *)
Lemma parse_member_value (message key : string) (parsed : jsval) :
  JSON_parse message = Some parsed ->
  not_nullish parsed = true ->
  parse_member message key = ret (member key parsed).
Proof.
  intros Hparse Hnn. unfold parse_member. rewrite Hparse.
  destruct parsed; try discriminate Hnn; reflexivity.
Qed.

(** The block of [Dimmer] and the block of [CT]. *)
Lemma yields_member_block (config : AccessoryConfig) (c : Characteristic)
    (d : jsval) (s : ExampleSwitch) :
  yields (when (not_nullish d) (
            new <- ret d ;;
            cur <- this (field c) ;;
            changed <- differs new cur ;;
            when changed (
              assign (set_field c) new ;;
              x <- this (field c) ;;
              setValue config c x echo_tag)))
         s (settle c (Normal (if not_nullish d then Some d else None)) s).
Proof.
  destruct (not_nullish d); simpl.
  - apply (yields_bind_value _ _ _ s d); [reflexivity|]. apply yields_settle.
  - apply yields_ret.
Qed.

(** The two blocks of [HSBColor], for the piece [i] of its text. *)
Lemma yields_piece_block (config : AccessoryConfig) (c : Characteristic)
    (i : nat) (h : jsval) (s : ExampleSwitch) :
  yields (when (not_nullish h) (
            hsb <- ret h ;;
            text <- toString_method hsb ;;
            let new := index (split "," text) i in
            cur <- this (field c) ;;
            changed <- differs new cur ;;
            when changed (
              assign (set_field c) new ;;
              x <- this (field c) ;;
              setValue config c x echo_tag)))
         s (settle c (if not_nullish h then
                        match js_ToString h with
                        | Some text => Normal (Some (index (split "," text) i))
                        | None => Throw TypeError
                        end
                      else Normal None) s).
Proof.
  destruct (not_nullish h) eqn:Hnn; simpl.
  - apply (yields_bind_value _ _ _ s h); [reflexivity|].
    unfold toString_method. rewrite Hnn.
    destruct (js_ToString h) as [text|].
    + apply (yields_bind_value _ _ _ s text); [reflexivity|]. apply yields_settle.
    + now apply yields_bind_raise.
  - apply yields_ret.
Qed.

(** The four blocks of the composite topic, on a parsed message. *)
Lemma composite_blocks_decode (config : AccessoryConfig) (message : string)
    (parsed : jsval) (s : ExampleSwitch) :
  JSON_parse message = Some parsed ->
  not_nullish parsed = true ->
  yields
    (dimmer <- parse_member message "Dimmer" ;;
     when (not_nullish dimmer) (
       newB <- parse_member message "Dimmer" ;;
       b <- this lightbulbBrightness ;;
       changed <- differs newB b ;;
       when changed (
         assign set_lightbulbBrightness newB ;;
         b' <- this lightbulbBrightness ;;
         setValue config Brightness b' (JStr "fromSetValue"))) ;;
     ct <- parse_member message "CT" ;;
     when (not_nullish ct) (
       newCT <- parse_member message "CT" ;;
       c <- this lightbulbColorTemp ;;
       changed <- differs newCT c ;;
       when changed (
         assign set_lightbulbColorTemp newCT ;;
         c' <- this lightbulbColorTemp ;;
         setValue config ColorTemperature c' (JStr "fromSetValue"))) ;;
     hsb <- parse_member message "HSBColor" ;;
     when (not_nullish hsb) (
       hsb' <- parse_member message "HSBColor" ;;
       text <- toString_method hsb' ;;
       let newHue := index (split "," text) 0 in
       h <- this lightbulbHue ;;
       changed <- differs newHue h ;;
       when changed (
         assign set_lightbulbHue newHue ;;
         h' <- this lightbulbHue ;;
         setValue config Hue h' (JStr "fromSetValue"))) ;;
     hsb2 <- parse_member message "HSBColor" ;;
     when (not_nullish hsb2) (
       hsb2' <- parse_member message "HSBColor" ;;
       text <- toString_method hsb2' ;;
       let newSat := index (split "," text) 1 in
       sat <- this lightbulbSat ;;
       changed <- differs newSat sat ;;
       when changed (
         assign set_lightbulbSat newSat ;;
         sat' <- this lightbulbSat ;;
         setValue config Saturation sat' (JStr "fromSetValue"))))
    s (decode parsed s).
Proof.
  intros Hparse Hnn.
  rewrite !(parse_member_value message _ parsed Hparse Hnn).
  unfold decode.
  apply (yields_bind_value _ _ _ s (member "Dimmer" parsed)); [reflexivity|].
  apply yields_followed;
    [exact (yields_member_block config Brightness (member "Dimmer" parsed) s)|].
  intros s1.
  apply (yields_bind_value _ _ _ s1 (member "CT" parsed)); [reflexivity|].
  apply yields_followed;
    [exact (yields_member_block config ColorTemperature (member "CT" parsed) s1)|].
  intros s2.
  apply (yields_bind_value _ _ _ s2 (member "HSBColor" parsed)); [reflexivity|].
  apply yields_followed;
    [exact (yields_piece_block config Hue 0 (member "HSBColor" parsed) s2)|].
  intros s3.
  apply (yields_bind_value _ _ _ s3 (member "HSBColor" parsed)); [reflexivity|].
  exact (yields_piece_block config Saturation 1 (member "HSBColor" parsed) s3).
Qed.

(** The ['message'] listener, for every topic, text and fields: how it
    ends, what it leaves and what it pushes are those of [reaction]. *)
Lemma on_message_yields (config : AccessoryConfig) (topic message : string)
    (s : ExampleSwitch) :
  yields (on_message config topic message) s (reaction config topic message s).
Proof.
  unfold on_message, reaction.
  apply yields_bind_log.
  apply yields_followed.
  - unfold decode_power. destruct (topic =? getOn (topics config))%string.
    + destruct (write_then_push config On (JBool (message =? "ON")%string) s)
        as (Hr & Hm & Hp & Hq).
      repeat split; assumption.
    + apply yields_ret.
  - intros s0. unfold decode_composite.
    destruct (topic =? getRes (topics config))%string; [|apply yields_ret].
    simpl.
    destruct (JSON_parse message) as [parsed|] eqn:Hparse.
    + destruct (not_nullish parsed) eqn:Hnn.
      * now apply composite_blocks_decode.
      * apply yields_bind_raise. unfold parse_member. rewrite Hparse.
        destruct parsed; try discriminate Hnn; reflexivity.
    + apply yields_bind_raise. unfold parse_member. now rewrite Hparse.
Qed.

End DecoderFacts.

(** ** Facts about the decoder *)

Section DecodeFacts.
Context {N : JSNumber} {J : JSON}.

Lemma field_settle_other (c c' : Characteristic) (cand : completion (option jsval))
    (s : ExampleSwitch) :
  c <> c' -> field c (fields_of (settle c' cand s)) = field c s.
Proof.
  intros Hne. unfold settle. destruct cand as [[v|]|e]; try reflexivity.
  destruct (js_loose_neq v (field c' s)) as [[|]|]; try reflexivity.
  unfold fields_of. simpl. now apply field_set_field_other.
Qed.

(** What [settle] leaves in its own field depends on that field only. *)
Lemma field_settle_same (c : Characteristic) (cand : completion (option jsval))
    (s : ExampleSwitch) :
  field c (fields_of (settle c cand s))
  = match cand with
    | Normal (Some v) =>
        match js_loose_neq v (field c s) with
        | Some true => v
        | _ => field c s
        end
    | _ => field c s
    end.
Proof.
  unfold settle. destruct cand as [[v|]|e]; try reflexivity.
  destruct (js_loose_neq v (field c s)) as [[|]|]; try reflexivity.
  unfold fields_of. simpl. apply field_set_field_same.
Qed.

Lemma settle_congruence (c : Characteristic) (cand : completion (option jsval))
    (s s' : ExampleSwitch) :
  field c s = field c s' ->
  field c (fields_of (settle c cand s)) = field c (fields_of (settle c cand s')).
Proof. intros Heq. rewrite !field_settle_same, Heq. reflexivity. Qed.

(** A block that ends normally had a candidate that did not raise, and a
    comparison that did not either. *)
Lemma settle_normal (c : Characteristic) (cand : completion (option jsval))
    (s : ExampleSwitch) :
  ending (settle c cand s) = Normal tt ->
  exists co, cand = Normal co /\
             forall v, co = Some v -> exists b, js_loose_neq v (field c s) = Some b.
Proof.
  unfold settle. destruct cand as [[v|]|e].
  - destruct (js_loose_neq v (field c s)) as [b|] eqn:Hneq.
    + intros _. exists (Some v). split; [reflexivity|].
      intros v' Hv. inversion Hv; subst. now exists b.
    + discriminate.
  - intros _. exists None. split; [reflexivity|]. discriminate.
  - discriminate.
Qed.

Lemma settle_at_rest (c : Characteristic) (cand : completion (option jsval))
    (s : ExampleSwitch) :
  (exists co, cand = Normal co /\
              forall v, co = Some v -> js_loose_neq v (field c s) = Some false) ->
  settle c cand s = (Normal tt, s, []).
Proof.
  intros (co & -> & Hrest). unfold settle. destruct co as [v|]; [|reflexivity].
  now rewrite (Hrest v eq_refl).
Qed.

Lemma In_settle (c c' : Characteristic) (v : jsval)
    (cand : completion (option jsval)) (s : ExampleSwitch) :
  In (c, v) (updates_of (settle c' cand s)) <->
  c = c' /\ cand = Normal (Some v) /\ js_loose_neq v (field c' s) = Some true.
Proof.
  unfold settle, updates_of. destruct cand as [[v'|]|e]; simpl.
  - destruct (js_loose_neq v' (field c' s)) as [[|]|] eqn:Hneq; simpl.
    + split.
      * intros [Heq | []]. inversion Heq; subst. auto.
      * intros (-> & Hsome & _). inversion Hsome; subst. now left.
    + split; [intros [] | intros (_ & Hsome & Hv)].
      inversion Hsome; subst. congruence.
    + split; [intros [] | intros (_ & Hsome & Hv)].
      inversion Hsome; subst. congruence.
  - split; [intros [] | intros (_ & Hsome & _); discriminate].
  - split; [intros [] | intros (_ & Hsome & _); discriminate].
Qed.

(** What holds of the fields before and is kept by both decodings holds
    after, however they end. *)
Lemma followed_preserves (P : ExampleSwitch -> Prop) (first : decoded)
    (next : ExampleSwitch -> decoded) :
  P (fields_of first) ->
  (forall s1, P s1 -> P (fields_of (next s1))) ->
  P (fields_of (followed first next)).
Proof.
  intros Hfirst Hnext. destruct first as [[r s1] u1].
  unfold followed, fields_of in *. simpl in Hfirst. destruct r as [[]|e].
  - specialize (Hnext s1 Hfirst). destruct (next s1) as [[r2 s2] u2]. exact Hnext.
  - exact Hfirst.
Qed.

(** Two decodings that together end normally: each did, and the second ran
    from the fields of the first. *)
Lemma followed_normal (first : decoded) (next : ExampleSwitch -> decoded) :
  ending (followed first next) = Normal tt ->
  ending first = Normal tt /\
  ending (next (fields_of first)) = Normal tt /\
  fields_of (followed first next) = fields_of (next (fields_of first)) /\
  updates_of (followed first next)
  = (updates_of first ++ updates_of (next (fields_of first)))%list.
Proof.
  destruct first as [[r s1] u1].
  unfold followed, ending, fields_of, updates_of. simpl. destruct r as [[]|e].
  - destruct (next s1) as [[r2 s2] u2]. simpl. intros ->. auto.
  - discriminate.
Qed.

Lemma decode_preserves (P : ExampleSwitch -> Prop) (parsed : jsval) :
  (forall c s0, c <> On -> P s0 -> P (fields_of (settle c (candidate parsed c) s0))) ->
  forall s, P s -> P (fields_of (decode parsed s)).
Proof.
  intros Hstep s Hs. unfold decode.
  apply followed_preserves; [apply Hstep; [discriminate | exact Hs]|].
  intros s1 Hs1.
  apply followed_preserves; [apply Hstep; [discriminate | exact Hs1]|].
  intros s2 Hs2.
  apply followed_preserves; [apply Hstep; [discriminate | exact Hs2]|].
  intros s3 Hs3. apply Hstep; [discriminate | exact Hs3].
Qed.

(** A decoding that ends normally, block by block. *)
Lemma decode_normal (parsed : jsval) (s : ExampleSwitch) :
  ending (decode parsed s) = Normal tt ->
  exists s1 s2 s3,
    s1 = fields_of (settle Brightness (candidate parsed Brightness) s) /\
    s2 = fields_of (settle ColorTemperature (candidate parsed ColorTemperature) s1) /\
    s3 = fields_of (settle Hue (candidate parsed Hue) s2) /\
    ending (settle Brightness (candidate parsed Brightness) s) = Normal tt /\
    ending (settle ColorTemperature (candidate parsed ColorTemperature) s1) = Normal tt /\
    ending (settle Hue (candidate parsed Hue) s2) = Normal tt /\
    ending (settle Saturation (candidate parsed Saturation) s3) = Normal tt /\
    fields_of (decode parsed s)
    = fields_of (settle Saturation (candidate parsed Saturation) s3) /\
    updates_of (decode parsed s)
    = (updates_of (settle Brightness (candidate parsed Brightness) s)
       ++ updates_of (settle ColorTemperature (candidate parsed ColorTemperature) s1)
       ++ updates_of (settle Hue (candidate parsed Hue) s2)
       ++ updates_of (settle Saturation (candidate parsed Saturation) s3))%list.
Proof.
  unfold decode. intros H.
  apply followed_normal in H. cbv beta in H. destruct H as (E1 & H & F1 & U1).
  pose proof H as H'.
  apply followed_normal in H'. cbv beta in H'. destruct H' as (E2 & H2 & F2 & U2).
  pose proof H2 as H2'.
  apply followed_normal in H2'. cbv beta in H2'. destruct H2' as (E3 & E4 & F3 & U3).
  eexists; eexists; eexists.
  split; [reflexivity|]. split; [reflexivity|]. split; [reflexivity|].
  split; [exact E1|]. split; [exact E2|]. split; [exact E3|]. split; [exact E4|].
  split.
  - rewrite F1, F2, F3. reflexivity.
  - rewrite U1, U2, U3. reflexivity.
Qed.

(** Each field after a [decode] that ends normally is what [settle] alone
    leaves in it. *)
Lemma field_decode (parsed : jsval) (c : Characteristic) (s : ExampleSwitch) :
  ending (decode parsed s) = Normal tt ->
  field c (fields_of (decode parsed s))
  = field c (fields_of (settle c (candidate parsed c) s)).
Proof.
  intros Hnormal.
  destruct (decode_normal parsed s Hnormal)
    as (s1 & s2 & s3 & H1 & H2 & H3 & _ & _ & _ & _ & H4 & _).
  rewrite H4. destruct c.
  - rewrite H3, H2, H1.
    rewrite !field_settle_other by discriminate. reflexivity.
  - rewrite H3, H2, !field_settle_other by discriminate. now rewrite H1.
  - rewrite H3, !field_settle_other by discriminate. rewrite H2.
    apply settle_congruence. rewrite H1. now apply field_settle_other.
  - rewrite field_settle_other by discriminate. rewrite H3.
    apply settle_congruence. rewrite H2, H1.
    rewrite !field_settle_other by discriminate. reflexivity.
  - apply settle_congruence. rewrite H3, H2, H1.
    rewrite !field_settle_other by discriminate. reflexivity.
Qed.

(** The updates of a [decode] that ends normally are the candidates that
    [!=] tells apart from the fields as they were. *)
Lemma In_decode (parsed : jsval) (c : Characteristic) (v : jsval)
    (s : ExampleSwitch) :
  ending (decode parsed s) = Normal tt ->
  (In (c, v) (updates_of (decode parsed s)) <->
   candidate parsed c = Normal (Some v) /\ js_loose_neq v (field c s) = Some true).
Proof.
  intros Hnormal.
  destruct (decode_normal parsed s Hnormal)
    as (s1 & s2 & s3 & H1 & H2 & H3 & _ & _ & _ & _ & _ & U).
  assert (F2 : field ColorTemperature s1 = field ColorTemperature s)
    by (rewrite H1; now apply field_settle_other).
  assert (F3 : field Hue s2 = field Hue s)
    by (rewrite H2, H1, !field_settle_other by discriminate; reflexivity).
  assert (F4 : field Saturation s3 = field Saturation s)
    by (rewrite H3, H2, H1, !field_settle_other by discriminate; reflexivity).
  rewrite U, !in_app_iff, !In_settle, F2, F3, F4.
  split.
  - intros [(-> & H) | [(-> & H) | [(-> & H) | (-> & H)]]]; exact H.
  - intros [Hcand Hneq]. destruct c; [discriminate Hcand | | | | ]; tauto.
Qed.

(** In a [decode] that ends normally no candidate raised, and each was
    compared with its field as the field was before the message. *)
Lemma decode_normal_candidates (parsed : jsval) (s : ExampleSwitch) :
  ending (decode parsed s) = Normal tt ->
  forall c, exists co,
    candidate parsed c = Normal co /\
    forall v, co = Some v -> exists b, js_loose_neq v (field c s) = Some b.
Proof.
  intros Hnormal.
  destruct (decode_normal parsed s Hnormal)
    as (s1 & s2 & s3 & H1 & H2 & H3 & E1 & E2 & E3 & E4 & _ & _).
  assert (F2 : field ColorTemperature s1 = field ColorTemperature s)
    by (rewrite H1; now apply field_settle_other).
  assert (F3 : field Hue s2 = field Hue s)
    by (rewrite H2, H1, !field_settle_other by discriminate; reflexivity).
  assert (F4 : field Saturation s3 = field Saturation s)
    by (rewrite H3, H2, H1, !field_settle_other by discriminate; reflexivity).
  apply settle_normal in E1, E2, E3, E4.
  rewrite F2 in E2. rewrite F3 in E3. rewrite F4 in E4.
  intros [].
  - exists None. split; [reflexivity | discriminate].
  - exact E1.
  - exact E2.
  - exact E3.
  - exact E4.
Qed.

(** When [!=] tells no candidate apart from its field, nothing is written. *)
Lemma decode_at_rest (parsed : jsval) (s : ExampleSwitch) :
  (forall c, exists co,
     candidate parsed c = Normal co /\
     forall v, co = Some v -> js_loose_neq v (field c s) = Some false) ->
  decode parsed s = (Normal tt, s, []).
Proof.
  intros Hrest. unfold decode.
  rewrite (settle_at_rest Brightness _ s (Hrest Brightness)). unfold followed at 1.
  rewrite (settle_at_rest ColorTemperature _ s (Hrest ColorTemperature)).
  unfold followed at 1.
  rewrite (settle_at_rest Hue _ s (Hrest Hue)). unfold followed at 1.
  rewrite (settle_at_rest Saturation _ s (Hrest Saturation)).
  reflexivity.
Qed.

(** [split] always returns a first piece. *)
Lemma split_first (sep : ascii) (s : string) :
  exists piece pieces, split sep s = piece :: pieces.
Proof.
  destruct s as [|c rest]; simpl.
  - now exists EmptyString, [].
  - destruct (Ascii.eqb c sep).
    + now exists EmptyString, (split sep rest).
    + destruct (split sep rest) as [|piece pieces].
      * now exists (String c EmptyString), [].
      * now exists (String c piece), pieces.
Qed.

(** A text without the separator is its own single piece. *)
Lemma split_without_separator (sep : ascii) (s : string) :
  contains sep s = false -> split sep s = [s].
Proof.
  induction s as [|c rest IH]; simpl; intros Hnone.
  - reflexivity.
  - apply orb_false_iff in Hnone. destruct Hnone as [Hc Hrest].
    rewrite Hc, (IH Hrest). reflexivity.
Qed.

(** A text with the separator has a second piece. *)
Lemma split_with_separator (sep : ascii) (s : string) :
  contains sep s = true ->
  exists first second pieces, split sep s = first :: second :: pieces.
Proof.
  induction s as [|c rest IH]; simpl; intros Hsome.
  - discriminate.
  - destruct (Ascii.eqb c sep); simpl in Hsome.
    + destruct (split_first sep rest) as (piece & pieces & Hsplit).
      rewrite Hsplit. now exists EmptyString, piece, pieces.
    + destruct (IH Hsome) as (first & second & pieces & Hsplit).
      rewrite Hsplit. now exists (String c first), second, pieces.
Qed.

(** A string and [undefined] are each [==] to themselves. *)
Lemma index_self_equal (pieces : list string) (i : nat) :
  js_loose_neq (index pieces i) (index pieces i) = Some false.
Proof.
  unfold index, js_loose_neq. destruct (nth_error pieces i) as [piece|]; simpl.
  - now rewrite String.eqb_refl.
  - reflexivity.
Qed.

Lemma undefined_differs_from_defined (v : jsval) :
  js_loose_neq JUndefined v = Some (not_nullish v).
Proof. destruct v; reflexivity. Qed.

(** A candidate for a field other than saturation is never [null] or
    [undefined]: [Dimmer] and [CT] are tested, and [split] always has a
    first piece. *)
Lemma candidate_defined (parsed : jsval) (c : Characteristic) (v : jsval) :
  c <> Saturation -> candidate parsed c = Normal (Some v) -> not_nullish v = true.
Proof.
  intros Hc Hcand. unfold candidate in Hcand. destruct c.
  - discriminate Hcand.
  - destruct (not_nullish (member "Dimmer" parsed)) eqn:Hnn; inversion Hcand; subst.
    exact Hnn.
  - destruct (not_nullish (member "CT" parsed)) eqn:Hnn; inversion Hcand; subst.
    exact Hnn.
  - destruct (not_nullish (member "HSBColor" parsed)); [|discriminate Hcand].
    destruct (js_ToString (member "HSBColor" parsed)) as [text|];
      inversion Hcand; subst.
    destruct (split_first "," text) as (piece & pieces & Hsplit).
    rewrite Hsplit. reflexivity.
  - now elim Hc.
Qed.

(** The fields after the listener: those of the composite decoding, run
    from the fields the power topic leaves. *)
Lemma reaction_fields (config : AccessoryConfig) (topic message : string)
    (s : ExampleSwitch) :
  fields_of (reaction config topic message s)
  = fields_of (decode_composite config topic message
                 (fields_of (decode_power config topic message s))).
Proof.
  unfold reaction, decode_power.
  destruct (topic =? getOn (topics config))%string; unfold followed, fields_of; simpl;
    match goal with
    | |- context [decode_composite ?c ?t ?m ?s0] =>
        destruct (decode_composite c t m s0) as [[r s'] u]
    end; reflexivity.
Qed.

Lemma reaction_on_composite_topic (config : AccessoryConfig) (message : string)
    (parsed : jsval) (s : ExampleSwitch) :
  getRes (topics config) <> getOn (topics config) ->
  JSON_parse message = Some parsed ->
  not_nullish parsed = true ->
  reaction config (getRes (topics config)) message s = decode parsed s.
Proof.
  intros Hdiff Hparse Hnn. unfold reaction, decode_power, decode_composite.
  apply String.eqb_neq in Hdiff. rewrite Hdiff, String.eqb_refl, Hparse, Hnn.
  unfold followed. destruct (decode parsed s) as [[r s'] u]. reflexivity.
Qed.

(** The listener on the composite topic, on a text that parses to a value
    other than [null]. *)
Lemma on_message_decode (config : AccessoryConfig) (message : string)
    (parsed : jsval) (s : ExampleSwitch) :
  getRes (topics config) <> getOn (topics config) ->
  JSON_parse message = Some parsed ->
  not_nullish parsed = true ->
  yields (on_message config (getRes (topics config)) message) s (decode parsed s).
Proof.
  intros Hdiff Hparse Hnn.
  rewrite <- (reaction_on_composite_topic config message parsed s Hdiff Hparse Hnn).
  apply on_message_yields.
Qed.

End DecodeFacts.

(** ** Further properties of the ['message'] listener *)

Lemma parse_power_on :
  JSON_parse Telemetry.power_on = Some (JObj [("POWER"%string, JStr "ON")]).
Proof. reflexivity. Qed.

Lemma parse_json_null : JSON_parse Telemetry.json_null = Some JNull.
Proof. reflexivity. Qed.

Lemma parse_full_state :
  JSON_parse Telemetry.full_state
  = Some (JObj [("Dimmer"%string, JNum 42%Z); ("CT"%string, JNum 300%Z);
                ("HSBColor"%string, JStr "120,50,80")]).
Proof. reflexivity. Qed.

Lemma parse_hsb_120 :
  JSON_parse Example.hsb_120 = Some (JObj [("HSBColor"%string, JStr "120")]).
Proof. reflexivity. Qed.

(** X1. A message on a topic the constructor did not subscribe to is logged
    and nothing else: the listener ends normally, writes no field, pushes
    and publishes nothing. *)
Theorem unsubscribed_topic_is_only_logged :
  forall (N : JSNumber) (J : JSON) (config : AccessoryConfig)
         (topic message : string) (s : ExampleSwitch),
    ~ In topic (subscribed config) ->
    on_message config topic message s
    = {| result := Normal tt; mirror := s; calls := [log_info [message; topic]] |}.
Proof.
  intros N J config topic message s Hnot. unfold subscribed in Hnot. simpl in Hnot.
  assert (HgetOn : (topic =? getOn (topics config))%string = false)
    by (apply String.eqb_neq; intros ->; tauto).
  assert (HgetRes : (topic =? getRes (topics config))%string = false)
    by (apply String.eqb_neq; intros ->; tauto).
  unfold on_message. rewrite HgetOn, HgetRes. reflexivity.
Qed.

Lemma unsubscribed_topic_is_only_logged_witness :
  ~ In "tele/bulb/STATE"%string (subscribed Example.tasmota) /\
  on_message Example.tasmota "tele/bulb/STATE" Example.dimmer_42 constructed
  = {| result := Normal tt; mirror := constructed;
       calls := [log_info [Example.dimmer_42; "tele/bulb/STATE"%string]] |}.
Proof.
  assert (Hnot : ~ In "tele/bulb/STATE"%string (subscribed Example.tasmota))
    by (simpl; intros [H | [H | []]]; discriminate H).
  split; [exact Hnot|].
  exact (unsubscribed_topic_is_only_logged ZNumber IntegerJSON Example.tasmota
           "tele/bulb/STATE" Example.dimmer_42 constructed Hnot).
Defined.

(** The composite decoding never writes [lightbulbOn], however it ends. *)
Lemma decode_composite_keeps_power (N : JSNumber) (J : JSON)
    (config : AccessoryConfig) (topic message : string) (s : ExampleSwitch) :
  lightbulbOn (fields_of (decode_composite config topic message s)) = lightbulbOn s.
Proof.
  unfold decode_composite.
  destruct (topic =? getRes (topics config))%string; [|reflexivity].
  destruct (JSON_parse message) as [parsed|]; [|reflexivity].
  destruct (not_nullish parsed); [|reflexivity].
  apply (decode_preserves (fun s' => lightbulbOn s' = lightbulbOn s)); [|reflexivity].
  intros c s0 Hc Hs0. rewrite <- Hs0.
  apply (field_settle_other On c (candidate parsed c) s0).
  intros Heq. now apply Hc.
Qed.

(** X2. [lightbulbOn] follows the power topic and nothing else: after any
    message it is the test [message == "ON"] when the topic is [getOn], and
    what it was otherwise, also when the composite decoding of the same
    message raises. *)
Theorem power_field_follows_power_topic_only :
  forall (N : JSNumber) (J : JSON) (config : AccessoryConfig)
         (topic message : string) (s : ExampleSwitch),
    lightbulbOn (mirror (on_message config topic message s))
    = if (topic =? getOn (topics config))%string
      then JBool (message =? "ON")%string
      else lightbulbOn s.
Proof.
  intros N J config topic message s.
  destruct (on_message_yields config topic message s) as (_ & Hm & _).
  rewrite Hm, reaction_fields, decode_composite_keeps_power.
  unfold decode_power.
  destruct (topic =? getOn (topics config))%string; reflexivity.
Qed.

(** X3. On the composite topic, a text that parses to [null]: the listener
    logs the message and ends with a TypeError, having written, pushed and
    published nothing. *)
Theorem json_null_raises_type_error :
  forall (N : JSNumber) (J : JSON) (config : AccessoryConfig)
         (message : string) (parsed : jsval) (s : ExampleSwitch),
    getRes (topics config) <> getOn (topics config) ->
    JSON_parse message = Some parsed ->
    not_nullish parsed = false ->
    on_message config (getRes (topics config)) message s
    = {| result := Throw TypeError; mirror := s;
         calls := [log_info [message; getRes (topics config)]] |}.
Proof.
  intros N J config message parsed s Hdiff Hparse Hnull.
  apply String.eqb_neq in Hdiff.
  unfold on_message, parse_member. rewrite Hdiff, String.eqb_refl, Hparse.
  destruct parsed; try discriminate Hnull; reflexivity.
Qed.

Lemma json_null_raises_type_error_witness :
  getRes (topics Example.tasmota) <> getOn (topics Example.tasmota) /\
  JSON_parse Telemetry.json_null = Some JNull /\
  result (on_message Example.tasmota (getRes (topics Example.tasmota))
            Telemetry.json_null constructed) = Throw TypeError.
Proof.
  split; [exact tasmota_topics_differ|]. split; [exact parse_json_null|].
  rewrite (json_null_raises_type_error ZNumber IntegerJSON Example.tasmota
             Telemetry.json_null JNull constructed
             tasmota_topics_differ parse_json_null eq_refl).
  reflexivity.
Defined.

(** X4. The ['message'] listener is the decoder [reaction]: for every topic,
    text and fields it ends as [reaction] says, normally or with the
    exception of the block that raised, leaves the fields [reaction]
    computes, pushes exactly its updates, each with the tag, in its order,
    and publishes nothing. *)
Theorem message_listener_is_the_decoder :
  forall (N : JSNumber) (J : JSON) (config : AccessoryConfig)
         (topic message : string) (s : ExampleSwitch),
    result (on_message config topic message s)
    = ending (reaction config topic message s) /\
    mirror (on_message config topic message s)
    = fields_of (reaction config topic message s) /\
    pushes (calls (on_message config topic message s))
    = map tagged (updates_of (reaction config topic message s)) /\
    publishes (calls (on_message config topic message s)) = [].
Proof. intros N J config topic message s. exact (on_message_yields config topic message s). Qed.

(** X5. On the composite topic, with a text that parses to a value other
    than [null], when the listener ends normally: a value is pushed for a
    field exactly when the message carries a candidate for it that [!=]
    tells apart from the field as it was; [On] is never pushed. *)
Theorem update_pushed_exactly_when_different :
  forall (N : JSNumber) (J : JSON) (config : AccessoryConfig)
         (message : string) (parsed : jsval) (s : ExampleSwitch)
         (c : Characteristic) (v : jsval),
    getRes (topics config) <> getOn (topics config) ->
    JSON_parse message = Some parsed ->
    not_nullish parsed = true ->
    result (on_message config (getRes (topics config)) message s) = Normal tt ->
    (In (c, v, echo_tag)
        (pushes (calls (on_message config (getRes (topics config)) message s)))
     <-> candidate parsed c = Normal (Some v) /\
         js_loose_neq v (field c s) = Some true).
Proof.
  intros N J config message parsed s c v Hdiff Hparse Hnn Hnormal.
  destruct (on_message_decode config message parsed s Hdiff Hparse Hnn)
    as (Hr & _ & Hp & _).
  rewrite Hr in Hnormal. rewrite Hp, <- (In_decode parsed c v s Hnormal). split.
  - intros Hin. apply in_map_iff in Hin. destruct Hin as ([c' v'] & Heq & Hin).
    unfold tagged in Heq. simpl in Heq. inversion Heq; subst. exact Hin.
  - intros Hin. change (c, v, echo_tag) with (tagged (c, v)). now apply in_map.
Qed.

Lemma update_pushed_exactly_when_different_witness :
  getRes (topics Example.tasmota) <> getOn (topics Example.tasmota) /\
  result (on_message Example.tasmota (getRes (topics Example.tasmota))
            Telemetry.full_state Telemetry.brightness_42) = Normal tt /\
  In (ColorTemperature, JNum 300%Z, echo_tag)
     (pushes (calls (on_message Example.tasmota (getRes (topics Example.tasmota))
                       Telemetry.full_state Telemetry.brightness_42))) /\
  ~ In (Brightness, JNum 42%Z, echo_tag)
       (pushes (calls (on_message Example.tasmota (getRes (topics Example.tasmota))
                         Telemetry.full_state Telemetry.brightness_42))).
Proof.
  split; [exact tasmota_topics_differ|]. split; [reflexivity|]. split.
  - apply (update_pushed_exactly_when_different ZNumber IntegerJSON Example.tasmota
             Telemetry.full_state _ Telemetry.brightness_42 ColorTemperature
             (@JNum ZNumber 300%Z)
             tasmota_topics_differ parse_full_state eq_refl eq_refl).
    split; reflexivity.
  - intros Hin.
    apply (update_pushed_exactly_when_different ZNumber IntegerJSON Example.tasmota
             Telemetry.full_state _ Telemetry.brightness_42 Brightness
             (@JNum ZNumber 42%Z)
             tasmota_topics_differ parse_full_state eq_refl eq_refl) in Hin.
    destruct Hin as [_ Hneq]. discriminate Hneq.
Defined.

(** X6. On the composite topic, a message none of whose candidates raises
    and whose every candidate is [==] to its field (a device confirming
    what the mirror holds, or a message with none of [Dimmer], [CT],
    [HSBColor]) ends normally and writes, pushes and publishes nothing. *)
Theorem confirming_message_changes_nothing :
  forall (N : JSNumber) (J : JSON) (config : AccessoryConfig)
         (message : string) (parsed : jsval) (s : ExampleSwitch),
    getRes (topics config) <> getOn (topics config) ->
    JSON_parse message = Some parsed ->
    not_nullish parsed = true ->
    (forall c, exists co,
       candidate parsed c = Normal co /\
       forall v, co = Some v -> js_loose_eq v (field c s) = Some true) ->
    result (on_message config (getRes (topics config)) message s) = Normal tt /\
    mirror (on_message config (getRes (topics config)) message s) = s /\
    pushes (calls (on_message config (getRes (topics config)) message s)) = [] /\
    publishes (calls (on_message config (getRes (topics config)) message s)) = [].
Proof.
  intros N J config message parsed s Hdiff Hparse Hnn Hsame.
  destruct (on_message_decode config message parsed s Hdiff Hparse Hnn)
    as (Hr & Hm & Hp & Hq).
  assert (Hrest : decode parsed s = (Normal tt, s, [])).
  { apply decode_at_rest. intros c.
    destruct (Hsame c) as (co & Hcand & Heq).
    exists co. split; [exact Hcand|]. intros v Hv.
    unfold js_loose_neq. now rewrite (Heq v Hv). }
  rewrite Hrest in Hr, Hm, Hp.
  repeat split; assumption.
Qed.

Lemma confirming_message_changes_nothing_witness :
  getRes (topics Example.tasmota) <> getOn (topics Example.tasmota) /\
  mirror (on_message Example.tasmota (getRes (topics Example.tasmota))
            Example.dimmer_42 Telemetry.brightness_42) = Telemetry.brightness_42 /\
  mirror (on_message Example.tasmota (getRes (topics Example.tasmota))
            Telemetry.power_on constructed) = constructed.
Proof.
  split; [exact tasmota_topics_differ|]. split.
  - apply (confirming_message_changes_nothing ZNumber IntegerJSON Example.tasmota
             Example.dimmer_42 _ Telemetry.brightness_42
             tasmota_topics_differ parse_dimmer_42 eq_refl).
    intros [];
      [exists None | exists (Some (@JNum ZNumber 42%Z)) | exists None
       | exists None | exists None];
      (split; [reflexivity | intros v Hv; inversion Hv; reflexivity]).
  - apply (confirming_message_changes_nothing ZNumber IntegerJSON Example.tasmota
             Telemetry.power_on _ constructed
             tasmota_topics_differ parse_power_on eq_refl).
    intros []; exists None; (split; [reflexivity | intros v Hv; discriminate Hv]).
Defined.

(** X7. On the composite topic, the same message once more: when the first
    handling ended normally and the [Dimmer] and [CT] of the message are
    each [==] to themselves (numbers, strings, booleans; not arrays or
    objects), the second handling ends normally and writes, pushes and
    publishes nothing, whatever the first one wrote. *)
Theorem repeated_message_changes_nothing :
  forall (N : JSNumber) (J : JSON) (config : AccessoryConfig)
         (message : string) (parsed : jsval) (s : ExampleSwitch),
    getRes (topics config) <> getOn (topics config) ->
    JSON_parse message = Some parsed ->
    not_nullish parsed = true ->
    result (on_message config (getRes (topics config)) message s) = Normal tt ->
    js_loose_eq (member "Dimmer" parsed) (member "Dimmer" parsed) = Some true ->
    js_loose_eq (member "CT" parsed) (member "CT" parsed) = Some true ->
    let s1 := mirror (on_message config (getRes (topics config)) message s) in
    result (on_message config (getRes (topics config)) message s1) = Normal tt /\
    mirror (on_message config (getRes (topics config)) message s1) = s1 /\
    pushes (calls (on_message config (getRes (topics config)) message s1)) = [] /\
    publishes (calls (on_message config (getRes (topics config)) message s1)) = [].
Proof.
  intros N J config message parsed s Hdiff Hparse Hnn Hnormal Hdimmer Hct s1.
  destruct (on_message_decode config message parsed s Hdiff Hparse Hnn)
    as (Hr0 & Hm0 & _).
  rewrite Hr0 in Hnormal.
  assert (Hs1 : s1 = fields_of (decode parsed s)) by (subst s1; exact Hm0).
  destruct (on_message_decode config message parsed s1 Hdiff Hparse Hnn)
    as (Hr & Hm & Hp & Hq).
  assert (Hrest : decode parsed s1 = (Normal tt, s1, []));
    [|rewrite Hrest in Hr, Hm, Hp; repeat split; assumption].
  apply decode_at_rest. intros c.
  destruct (decode_normal_candidates parsed s Hnormal c) as (co & Hcand & Hcompared).
  exists co. split; [exact Hcand|]. intros v Hv. subst co.
  destruct (Hcompared v eq_refl) as (b & Hb).
  rewrite Hs1, (field_decode parsed c s Hnormal), field_settle_same, Hcand, Hb.
  destruct b; [|exact Hb].
  unfold candidate in Hcand. destruct c.
  - discriminate Hcand.
  - destruct (not_nullish (member "Dimmer" parsed)); inversion Hcand; subst.
    unfold js_loose_neq. now rewrite Hdimmer.
  - destruct (not_nullish (member "CT" parsed)); inversion Hcand; subst.
    unfold js_loose_neq. now rewrite Hct.
  - destruct (not_nullish (member "HSBColor" parsed)); [|discriminate Hcand].
    destruct (js_ToString (member "HSBColor" parsed)); inversion Hcand; subst.
    apply index_self_equal.
  - destruct (not_nullish (member "HSBColor" parsed)); [|discriminate Hcand].
    destruct (js_ToString (member "HSBColor" parsed)); inversion Hcand; subst.
    apply index_self_equal.
Qed.

Lemma repeated_message_changes_nothing_witness :
  getRes (topics Example.tasmota) <> getOn (topics Example.tasmota) /\
  JSON_parse Telemetry.full_state
  = Some (JObj [("Dimmer"%string, JNum 42%Z); ("CT"%string, JNum 300%Z);
                ("HSBColor"%string, JStr "120,50,80")]) /\
  result (on_message Example.tasmota (getRes (topics Example.tasmota))
            Telemetry.full_state constructed) = Normal tt /\
  pushes (calls (on_message Example.tasmota (getRes (topics Example.tasmota))
                   Telemetry.full_state
                   (mirror (on_message Example.tasmota (getRes (topics Example.tasmota))
                              Telemetry.full_state constructed)))) = [].
Proof.
  split; [exact tasmota_topics_differ|]. split; [exact parse_full_state|].
  split; [reflexivity|].
  exact (proj1 (proj2 (proj2
           (repeated_message_changes_nothing ZNumber IntegerJSON Example.tasmota
              Telemetry.full_state _ constructed
              tasmota_topics_differ parse_full_state eq_refl eq_refl
              eq_refl eq_refl)))).
Defined.

(** X8. On the composite topic, an [HSBColor] that has a text without a
    comma, in a message the listener handles to its normal end: after the
    message [lightbulbSat] is [null] or [undefined]; when it held a value
    before, it is [undefined] now and [undefined] has been pushed to the
    Saturation characteristic.  With a comma in the text the saturation
    candidate is a string. *)
Theorem hsbcolor_without_comma_unsets_saturation :
  forall (N : JSNumber) (J : JSON) (config : AccessoryConfig)
         (message : string) (parsed : jsval) (s : ExampleSwitch) (text : string),
    getRes (topics config) <> getOn (topics config) ->
    JSON_parse message = Some parsed ->
    not_nullish parsed = true ->
    not_nullish (member "HSBColor" parsed) = true ->
    js_ToString (member "HSBColor" parsed) = Some text ->
    (contains "," text = false ->
     result (on_message config (getRes (topics config)) message s) = Normal tt ->
     not_nullish (lightbulbSat
                    (mirror (on_message config (getRes (topics config)) message s)))
     = false /\
     (not_nullish (lightbulbSat s) = true ->
      lightbulbSat (mirror (on_message config (getRes (topics config)) message s))
      = JUndefined /\
      In (Saturation, JUndefined, echo_tag)
         (pushes (calls (on_message config (getRes (topics config)) message s))))) /\
    (contains "," text = true ->
     exists second, candidate parsed Saturation = Normal (Some (JStr second))).
Proof.
  intros N J config message parsed s text Hdiff Hparse Hnn Hhsb Htext.
  destruct (on_message_decode config message parsed s Hdiff Hparse Hnn)
    as (Hr & Hm & Hp & _).
  split.
  - intros Hnocomma Hnormal. rewrite Hr in Hnormal.
    assert (Hcand : candidate parsed Saturation = Normal (Some JUndefined)).
    { unfold candidate. rewrite Hhsb, Htext, (split_without_separator _ _ Hnocomma).
      reflexivity. }
    assert (Hsat : lightbulbSat (fields_of (decode parsed s))
                   = if not_nullish (lightbulbSat s) then JUndefined else lightbulbSat s).
    { change (field Saturation (fields_of (decode parsed s))
              = if not_nullish (field Saturation s) then JUndefined
                else field Saturation s).
      rewrite (field_decode parsed Saturation s Hnormal), field_settle_same, Hcand.
      rewrite undefined_differs_from_defined.
      destruct (not_nullish (field Saturation s)); reflexivity. }
    rewrite Hm, Hp, Hsat. split.
    + destruct (not_nullish (lightbulbSat s)) eqn:Hbefore; [reflexivity | exact Hbefore].
    + intros Hbefore. rewrite Hbefore. split; [reflexivity|].
      change (Saturation, JUndefined, echo_tag) with (tagged (Saturation, JUndefined)).
      apply in_map. apply (In_decode parsed Saturation JUndefined s Hnormal).
      split; [exact Hcand|].
      rewrite undefined_differs_from_defined. simpl. now rewrite Hbefore.
  - intros Hcomma.
    destruct (split_with_separator _ _ Hcomma) as (first & second & pieces & Hsplit).
    exists second. unfold candidate. now rewrite Hhsb, Htext, Hsplit.
Qed.

Lemma hsbcolor_without_comma_unsets_saturation_witness :
  getRes (topics Example.tasmota) <> getOn (topics Example.tasmota) /\
  contains "," "120" = false /\
  result (on_message Example.tasmota (getRes (topics Example.tasmota))
            Example.hsb_120 constructed) = Normal tt /\
  lightbulbSat (mirror (on_message Example.tasmota (getRes (topics Example.tasmota))
                          Example.hsb_120 constructed)) = JUndefined.
Proof.
  split; [exact tasmota_topics_differ|]. split; [reflexivity|].
  split; [reflexivity|].
  exact (proj1 (proj2 (proj1
           (hsbcolor_without_comma_unsets_saturation ZNumber IntegerJSON
              Example.tasmota Example.hsb_120 _ constructed "120"
              tasmota_topics_differ parse_hsb_120 eq_refl eq_refl eq_refl)
           eq_refl eq_refl) eq_refl)).
Defined.

(** ** Properties of the SET listeners and of runs of events *)

(** The fields after a SET, whether it ends normally or not. *)
Lemma SET_mirror (N : JSNumber) (config : AccessoryConfig) (c : Characteristic)
    (v ctx : jsval) (s : ExampleSwitch) :
  mirror (SET config c v ctx s)
  = if js_strict_neq_string ctx "fromSetValue" then set_field c v s else s.
Proof.
  destruct s as [on b ct h sat].
  unfold SET, On_SET, Brightness_SET, ColorTemperature_SET, Hue_SET, Saturation_SET.
  destruct c; destruct (js_strict_neq_string ctx "fromSetValue");
    destruct v; cbv -[js_ToString];
    repeat match goal with
           | |- context [js_ToString ?x] => destruct (js_ToString x)
           end; reflexivity.
Qed.

(** A SET publishes at most once, on the set topic of its characteristic,
    and only when its context is not the tag. *)
Lemma SET_publishes (N : JSNumber) (config : AccessoryConfig) (c : Characteristic)
    (v ctx : jsval) (s : ExampleSwitch) :
  (List.length (publishes (calls (SET config c v ctx s)))
   <= if js_strict_neq_string ctx "fromSetValue" then 1 else 0)%nat /\
  Forall (fun tp => fst tp = set_topic config c)
         (publishes (calls (SET config c v ctx s))).
Proof.
  destruct s as [on b ct h sat]. destruct config as [name url tps].
  unfold SET, On_SET, Brightness_SET, ColorTemperature_SET, Hue_SET, Saturation_SET.
  destruct c; destruct (js_strict_neq_string ctx "fromSetValue");
    destruct v; cbv -[js_ToString Nat.le];
    repeat match goal with
           | |- context [js_ToString ?x] => destruct (js_ToString x)
           end; split; auto; repeat constructor.
Qed.

Lemma defined_but_saturation_fields (N : JSNumber) (s : ExampleSwitch) :
  defined_but_saturation s <->
  (forall c, c <> Saturation -> not_nullish (field c s) = true).
Proof.
  unfold defined_but_saturation. split.
  - intros (Hon & Hb & Hct & Hh) c Hc. destruct c; simpl; auto.
  - intros Hall. repeat split;
      [apply (Hall On) | apply (Hall Brightness)
       | apply (Hall ColorTemperature) | apply (Hall Hue)]; discriminate.
Qed.

Lemma reaction_keeps_defined (N : JSNumber) (J : JSON) (config : AccessoryConfig)
    (topic message : string) (s : ExampleSwitch) :
  defined_but_saturation s ->
  defined_but_saturation (fields_of (reaction config topic message s)).
Proof.
  intros Hdef. rewrite reaction_fields.
  assert (Hpower : defined_but_saturation
                     (fields_of (decode_power config topic message s))).
  { unfold decode_power. destruct (topic =? getOn (topics config))%string; [|exact Hdef].
    destruct Hdef as (_ & Hb & Hct & Hh). repeat split; assumption. }
  revert Hpower. generalize (fields_of (decode_power config topic message s)).
  intros s0 Hs0. unfold decode_composite.
  destruct (topic =? getRes (topics config))%string; [|exact Hs0].
  destruct (JSON_parse message) as [parsed|]; [|exact Hs0].
  destruct (not_nullish parsed); [|exact Hs0].
  apply (decode_preserves defined_but_saturation); [|exact Hs0].
  intros c s1 _ Hs1. apply defined_but_saturation_fields. intros c' Hc'.
  pose proof (proj1 (defined_but_saturation_fields N s1) Hs1 c' Hc') as Hfield.
  destruct (Characteristic_eq_dec c' c) as [-> | Hne].
  - rewrite field_settle_same.
    destruct (candidate parsed c) as [[v|]|e] eqn:Hcand; try exact Hfield.
    destruct (js_loose_neq v (field c s1)) as [[|]|]; try exact Hfield.
    exact (candidate_defined parsed c v Hc' Hcand).
  - now rewrite field_settle_other.
Qed.

Lemma react_keeps_defined (N : JSNumber) (J : JSON) (config : AccessoryConfig)
    (e : event) (s : ExampleSwitch) :
  sets_nullish e = false ->
  defined_but_saturation s ->
  defined_but_saturation (fst (react config e s)).
Proof.
  intros Hvalue Hdef. destruct e as [topic message | c | c v ctx]; simpl.
  - destruct (on_message_yields config topic message s) as (_ & Hm & _).
    rewrite Hm. now apply reaction_keeps_defined.
  - now rewrite (proj1 (GET_quiet N c s)).
  - rewrite SET_mirror. simpl in Hvalue.
    destruct (js_strict_neq_string ctx "fromSetValue"); [|exact Hdef].
    simpl in Hvalue. apply negb_false_iff in Hvalue.
    apply defined_but_saturation_fields. intros c' Hc'.
    destruct (Characteristic_eq_dec c' c) as [-> | Hne].
    + now rewrite field_set_field_same.
    + rewrite field_set_field_other by assumption.
      now apply defined_but_saturation_fields.
Qed.

(** X9. From the fields of a fresh accessory, or any fields whose [On],
    brightness, colour temperature and hue hold a value, these four hold a
    value after any run of messages, GETs and SETs in which the host sets no
    [null] or [undefined]: no message can unset them.  (Saturation is not
    among them.) *)
Theorem four_fields_stay_defined :
  forall (N : JSNumber) (J : JSON) (config : AccessoryConfig)
         (es : list event) (s : ExampleSwitch),
    Forall (fun e => sets_nullish e = false) es ->
    defined_but_saturation s ->
    defined_but_saturation (fst (run config es s)).
Proof.
  intros N J config es. induction es as [|e es IH]; intros s Hvalues Hdef.
  - exact Hdef.
  - inversion Hvalues as [|e' es' He Hes]; subst. simpl.
    pose proof (react_keeps_defined N J config e s He Hdef) as Hstep.
    destruct (react config e s) as [s1 t1]. simpl in Hstep.
    specialize (IH s1 Hes Hstep).
    destruct (run config es s1) as [s2 t2]. exact IH.
Qed.

Lemma four_fields_stay_defined_witness :
  defined_but_saturation constructed /\
  defined_but_saturation
    (fst (run Example.tasmota
            [MqttMessage "stat/bulb/RESULT" Example.hsb_120;
             HostSet Brightness (JNum 75%Z) JUndefined;
             MqttMessage "stat/bulb/POWER" "ON";
             HostGet Hue]
            constructed)).
Proof.
  assert (Hdef : defined_but_saturation constructed) by (repeat split; reflexivity).
  split; [exact Hdef|].
  apply (four_fields_stay_defined ZNumber IntegerJSON); [|exact Hdef].
  repeat constructor.
Defined.

Lemma react_publishes (N : JSNumber) (J : JSON) (config : AccessoryConfig)
    (e : event) (s : ExampleSwitch) :
  (List.length (publishes (snd (react config e s)))
   <= if is_local_set e then 1 else 0)%nat /\
  Forall (fun tp => exists c, fst tp = set_topic config c)
         (publishes (snd (react config e s))).
Proof.
  destruct e as [topic message | c | c v ctx]; simpl.
  - destruct (on_message_yields config topic message s) as (_ & _ & _ & Hq).
    rewrite Hq. split; [apply Nat.le_refl | constructor].
  - rewrite (proj1 (proj2 (GET_quiet N c s))).
    split; [apply Nat.le_refl | constructor].
  - destruct (SET_publishes N config c v ctx s) as [Hlen Htopics].
    split; [exact Hlen|].
    eapply Forall_impl; [|exact Htopics]. intros tp Htp. now exists c.
Qed.

(** X10. In any run of messages, GETs and SETs, from any fields, there are
    no more MQTT publishes than SETs whose context is not ['fromSetValue'],
    and every publish goes to one of the five set topics: messages, GETs and
    the SETs that echo a message never publish, however they interleave. *)
Theorem publishes_come_only_from_local_sets :
  forall (N : JSNumber) (J : JSON) (config : AccessoryConfig)
         (es : list event) (s : ExampleSwitch),
    (List.length (publishes (snd (run config es s)))
     <= List.length (filter is_local_set es))%nat /\
    Forall (fun tp => exists c, fst tp = set_topic config c)
           (publishes (snd (run config es s))).
Proof.
  intros N J config es. induction es as [|e es IH]; intros s; simpl.
  - split; [apply Nat.le_refl | constructor].
  - destruct (react_publishes N J config e s) as [Hlen Htopics].
    destruct (react config e s) as [s1 t1]. simpl in Hlen, Htopics.
    destruct (IH s1) as [IHlen IHtopics].
    destruct (run config es s1) as [s2 t2]. simpl in IHlen, IHtopics. simpl.
    rewrite publishes_app, length_app. split.
    + destruct (is_local_set e); simpl; lia.
    + apply Forall_app. split; assumption.
Qed.

(** X11. A SET that the host asks for with [null] or [undefined]: on
    brightness, colour temperature, hue and saturation the listener writes
    the value in the field and then ends with a TypeError, without
    publishing, logging or calling back; on [On] it ends normally, keeps the
    value in the field and publishes ["OFF"]. *)
Theorem local_set_of_null_raises_after_writing :
  forall (N : JSNumber) (J : JSON) (config : AccessoryConfig)
         (c : Characteristic) (v ctx : jsval) (s : ExampleSwitch),
    not_nullish v = false ->
    js_strict_neq_string ctx "fromSetValue" = true ->
    (c <> On ->
     SET config c v ctx s
     = {| result := Throw TypeError; mirror := set_field c v s; calls := [] |}) /\
    (c = On ->
     result (SET config c v ctx s) = Normal tt /\
     mirror (SET config c v ctx s) = set_lightbulbOn v s /\
     publishes (calls (SET config c v ctx s)) = [(setOn (topics config), "OFF"%string)]).
Proof.
  intros N J config c v ctx s Hnull Hctx.
  split; intros Hc; destruct c; try (now elim Hc); try discriminate Hc;
    unfold SET, On_SET, Brightness_SET, ColorTemperature_SET, Hue_SET, Saturation_SET;
    rewrite Hctx; destruct v; try discriminate Hnull; repeat split; reflexivity.
Qed.

Lemma local_set_of_null_raises_after_writing_witness :
  not_nullish (@JUndefined ZNumber) = false /\
  result (SET Example.tasmota Hue JUndefined JNull constructed) = Throw TypeError /\
  lightbulbHue (mirror (SET Example.tasmota Hue JUndefined JNull constructed))
  = JUndefined.
Proof.
  split; [reflexivity|].
  rewrite (proj1 (local_set_of_null_raises_after_writing ZNumber IntegerJSON
                    Example.tasmota Hue JUndefined JNull constructed eq_refl eq_refl)).
  - split; reflexivity.
  - discriminate.
Defined.

(** ** The earlier version, and the current one against it *)

(** A log line publishes nothing. *)
Lemma earlier_log_with_publishes (N : JSNumber) (text : string) (v : jsval) :
  publishes (snd (Earlier.log_with text v)) = [].
Proof. unfold Earlier.log_with. destruct (js_ToString v); reflexivity. Qed.

Lemma earlier_GET_publishes (N : JSNumber) (c : Earlier.characteristic)
    (s : Earlier.ExampleSwitch) :
  publishes (snd (Earlier.GET c s)) = [].
Proof.
  destruct c; simpl; [reflexivity | |];
    unfold Earlier.Brightness_GET, Earlier.ColorTemperature_GET, Earlier.log_with;
    match goal with
    | |- context [js_ToString ?x] => destruct (js_ToString x)
    end; reflexivity.
Qed.

Lemma earlier_react_publishes (N : JSNumber) (config : AccessoryConfig)
    (e : Earlier.event) (s : Earlier.ExampleSwitch) :
  List.length (publishes (snd (Earlier.react config e s)))
  = (if Earlier.sets_power e then 1 else 0)%nat /\
  Forall (fun tp => fst tp = setOn (topics config) /\
                    (snd tp = "ON"%string \/ snd tp = "OFF"%string))
         (publishes (snd (Earlier.react config e s))).
Proof.
  destruct e as [topic message | c | c v]; simpl.
  - unfold Earlier.on_message.
    destruct (topic =? getOn (topics config))%string; simpl; split; auto.
  - rewrite earlier_GET_publishes. split; auto.
  - destruct c; simpl.
    + split; auto.
      constructor; [|constructor]. simpl. split; [reflexivity|].
      unfold ON_OFF. destruct (js_ToBoolean v); auto.
    + unfold Earlier.Brightness_SET, Earlier.log_with. simpl.
      destruct (js_ToString v); simpl; split; auto.
    + unfold Earlier.ColorTemperature_SET, Earlier.log_with. simpl.
      destruct (js_ToString v); simpl; split; auto.
Qed.

(** X12. In the earlier version, over any run of messages, GETs and SETs,
    there is exactly one MQTT publish for each SET of [On], to the [setOn]
    topic with ["ON"] or ["OFF"], and no other: a SET of brightness or of
    colour temperature is kept in the field and never sent to the device. *)
Theorem earlier_version_publishes_power_only :
  forall (N : JSNumber) (config : AccessoryConfig)
         (es : list Earlier.event) (s : Earlier.ExampleSwitch),
    List.length (publishes (snd (Earlier.run config es s)))
    = List.length (filter Earlier.sets_power es) /\
    Forall (fun tp => fst tp = setOn (topics config) /\
                      (snd tp = "ON"%string \/ snd tp = "OFF"%string))
           (publishes (snd (Earlier.run config es s))).
Proof.
  intros N config es. induction es as [|e es IH]; intros s; simpl.
  - split; [reflexivity | constructor].
  - destruct (earlier_react_publishes N config e s) as [Hlen Htopics].
    destruct (Earlier.react config e s) as [s1 t1]. simpl in Hlen, Htopics.
    destruct (IH s1) as [IHlen IHtopics].
    destruct (Earlier.run config es s1) as [s2 t2]. simpl in IHlen, IHtopics. simpl.
    rewrite publishes_app, length_app, Hlen, IHlen. split.
    + destruct (Earlier.sets_power e); reflexivity.
    + apply Forall_app. split; assumption.
Qed.

(** One event: the shared fields move alike, and what the earlier version
    publishes the current one publishes too. *)
Lemma versions_agree_on_event (N : JSNumber) (J : JSON) (config : AccessoryConfig)
    (e : Earlier.event) (s : ExampleSwitch) :
  off_composite_topic config e ->
  shared_fields (fst (react config (current_event e) s))
  = fst (Earlier.react config e (shared_fields s)) /\
  (forall tp, In tp (publishes (snd (Earlier.react config e (shared_fields s)))) ->
              In tp (publishes (snd (react config (current_event e) s)))).
Proof.
  intros Hoff. destruct e as [topic message | c | c v]; simpl in Hoff |- *.
  - apply String.eqb_neq in Hoff.
    unfold on_message, Earlier.on_message. rewrite Hoff.
    destruct (topic =? getOn (topics config))%string; split; try reflexivity;
      intros tp [].
  - rewrite (proj1 (GET_quiet N (current_characteristic c) s)).
    split; [reflexivity|]. rewrite earlier_GET_publishes. intros tp [].
  - rewrite SET_mirror. simpl. destruct c; simpl.
    + split; [reflexivity|]. intros tp Hin. exact Hin.
    + unfold Earlier.Brightness_SET, Earlier.log_with. simpl.
      destruct (js_ToString v); split; try reflexivity; intros tp [].
    + unfold Earlier.ColorTemperature_SET, Earlier.log_with. simpl.
      destruct (js_ToString v); split; try reflexivity; intros tp [].
Qed.

(** X13. The current version keeps what the earlier one did.  Over any run
    of messages off the composite topic, GETs and host SETs of [On],
    brightness and colour temperature, the three fields the versions share
    end with the same values in both, and every publish of the earlier
    version is among the publishes of the current one. *)
Theorem current_version_extends_the_earlier :
  forall (N : JSNumber) (J : JSON) (config : AccessoryConfig)
         (es : list Earlier.event) (s : ExampleSwitch),
    Forall (off_composite_topic config) es ->
    shared_fields (fst (run config (map current_event es) s))
    = fst (Earlier.run config es (shared_fields s)) /\
    (forall tp, In tp (publishes (snd (Earlier.run config es (shared_fields s)))) ->
                In tp (publishes (snd (run config (map current_event es) s)))).
Proof.
  intros N J config es. induction es as [|e es IH]; intros s Hoff; simpl.
  - split; [reflexivity | intros tp []].
  - inversion Hoff as [|e' es' He Hes]; subst.
    destruct (versions_agree_on_event N J config e s He) as [Hfields Hpub].
    destruct (react config (current_event e) s) as [s1 t1].
    destruct (Earlier.react config e (shared_fields s)) as [s1' t1'].
    simpl in Hfields, Hpub. subst s1'.
    destruct (IH s1 Hes) as [IHfields IHpub].
    destruct (run config (map current_event es) s1) as [s2 t2].
    destruct (Earlier.run config es (shared_fields s1)) as [s2' t2'].
    simpl in IHfields, IHpub |- *. split; [exact IHfields|].
    intros tp. rewrite !publishes_app, !in_app_iff.
    intros [Hin | Hin]; [left; now apply Hpub | right; now apply IHpub].
Qed.

Lemma current_version_extends_the_earlier_witness :
  Forall (off_composite_topic Example.tasmota)
    [Earlier.MqttMessage "stat/bulb/POWER" "ON";
     Earlier.HostSet Earlier.Brightness (JNum 75%Z);
     Earlier.HostSet Earlier.On (JBool false);
     Earlier.HostGet Earlier.Brightness] /\
  shared_fields
    (fst (run Example.tasmota
            (map current_event
               [Earlier.MqttMessage "stat/bulb/POWER" "ON";
                Earlier.HostSet Earlier.Brightness (JNum 75%Z);
                Earlier.HostSet Earlier.On (JBool false);
                Earlier.HostGet Earlier.Brightness])
            constructed))
  = {| Earlier.lightbulbOn := JBool false;
       Earlier.lightbulbBrightness := JNum 75%Z;
       Earlier.lightbulbColorTemp := JNum 153%Z |}.
Proof.
  assert (Hoff : Forall (off_composite_topic Example.tasmota)
            [Earlier.MqttMessage "stat/bulb/POWER" "ON";
             Earlier.HostSet Earlier.Brightness (JNum 75%Z);
             Earlier.HostSet Earlier.On (JBool false);
             Earlier.HostGet Earlier.Brightness]).
  { repeat constructor. simpl. discriminate. }
  split; [exact Hoff|].
  rewrite (proj1 (current_version_extends_the_earlier ZNumber IntegerJSON
                    Example.tasmota _ constructed Hoff)).
  reflexivity.
Defined.
